(** * typed-function: runtime multiple dispatch on argument types

    A shallow embedding of the signature parser and the dispatcher of
    typed-function (the single source file of the library), followed by
    the properties of the specification that were checked against it.

    JavaScript strings are modelled as [string] (sequences of 8-bit code
    units, so the development covers Latin-1 signature texts); arrays and
    the [arguments] object as [list]; the registries of one instance as a
    record; the instances allocated by [create] as a finite map from
    instance handles to their state.  The entry point
    [typed(name, signatures)] with [findTypedFunctionName] is modelled
    after the dispatcher it is built with; the module loader and the empty
    [sortSignatures] are not. *)

From Stdlib Require Import ZArith String Ascii List Bool Lia.
From Stdlib Require DecimalString.
From stdpp Require Import base gmap strings list.

(** ** String primitives used by the parser *)

Module Str.

Local Open Scope Z_scope.

(** Code units that [String.prototype.trim] removes (WhiteSpace and
    LineTerminator of ECMAScript, restricted to 8-bit code units). *)
Definition is_white (c : ascii) : bool :=
  match c with
  | "009" | "010" | "011" | "012" | "013" | " " | "160" => true
  | _ => false
  end%char.

(** Code units that the regular-expression atom [.] does not match. *)
Definition is_line_terminator (c : ascii) : bool :=
  match c with
  | "010" | "013" => true
  | _ => false
  end%char.

Fixpoint trim_start (s : string) : string :=
  match s with
  | EmptyString => EmptyString
  | String c s' => if is_white c then trim_start s' else s
  end.

Fixpoint trim_end (s : string) : string :=
  match s with
  | EmptyString => EmptyString
  | String c s' =>
      match trim_end s' with
      | EmptyString => if is_white c then EmptyString else String c EmptyString
      | t => String c t
      end
  end.

(** [str.trim()] *)
Definition trim (s : string) : string := trim_end (trim_start s).

(** [str.split(sep)] for a one-character separator.  The result is never
    empty: splitting the empty string gives one empty piece. *)
Fixpoint split (sep : ascii) (s : string) : list string :=
  match s with
  | EmptyString => [EmptyString]
  | String c s' =>
      if Ascii.eqb c sep then EmptyString :: split sep s'
      else match split sep s' with
           | [] => [String c EmptyString]
           | p :: ps => String c p :: ps
           end
  end.

Fixpoint indexOf_from (pat s : string) (i : Z) : Z :=
  if String.prefix pat s then i
  else match s with
       | EmptyString => -1
       | String _ s' => indexOf_from pat s' (i + 1)
       end.

(** [str.indexOf(pat)]: position of the first occurrence, or -1. *)
Definition indexOf (pat s : string) : Z := indexOf_from pat s 0.

Fixpoint lastIndexOf_from (c : ascii) (s : string) (i acc : Z) : Z :=
  match s with
  | EmptyString => acc
  | String a s' =>
      lastIndexOf_from c s' (i + 1) (if Ascii.eqb a c then i else acc)
  end.

(** [str.lastIndexOf(c)] for a one-character pattern, or -1. *)
Definition lastIndexOf (c : ascii) (s : string) : Z :=
  lastIndexOf_from c s 0 (-1).

(** [str.replace(/ /g, '')] *)
Fixpoint remove_spaces (s : string) : string :=
  match s with
  | EmptyString => EmptyString
  | String c s' =>
      if Ascii.eqb c " " then remove_spaces s' else String c (remove_spaces s')
  end.

(** [str.replace(/^.../, '')].  The dots of the pattern are not escaped:
    the expression matches any three leading code units that are not line
    terminators, and removes them. *)
Definition replace_first3 (s : string) : string :=
  match s with
  | String a (String b (String c rest)) =>
      if is_line_terminator a || is_line_terminator b || is_line_terminator c
      then s else rest
  | _ => s
  end.

(** The lower-case mapping of one 8-bit code unit: A-Z, and the Latin-1
    capitals U+00C0 to U+00DE but for the multiplication sign U+00D7. *)
Definition lower_char (c : ascii) : ascii :=
  let n := nat_of_ascii c in
  if ((65 <=? n)%nat && (n <=? 90)%nat)%bool
     || ((192 <=? n)%nat && (n <=? 222)%nat && negb (n =? 215)%nat)%bool
  then ascii_of_nat (n + 32) else c.

(** [str.toLowerCase()] *)
Fixpoint toLowerCase (s : string) : string :=
  match s with
  | EmptyString => EmptyString
  | String c s' => String (lower_char c) (toLowerCase s')
  end.

(** [arr.join(sep)] *)
Definition join (sep : string) (l : list string) : string :=
  String.concat sep l.

End Str.

(** ** JavaScript values

    Only what the library observes of a value is modelled: its [typeof]
    tag, its class for [Array.isArray] and [instanceof], its truthiness and
    its own properties.  The payload of a number is irrelevant to every
    test of the library and is kept as an integer.  A function value is a
    handle [f]; what calling it yields is given by the interpretation
    [js_call] below.  Symbols and big integers are the primitives that
    only the built-in test [any] accepts. *)

Definition fid := nat.

#[warnings="-register-all"]
Inductive value : Type :=
| VUndefined
| VNull
| VBoolean (b : bool)
| VNumber (n : Z)
| VString (s : string)
| VFunction (f : fid) (props : list (string * value))
| VArray (items : list value)
| VDate (time : Z)
| VRegExp (source : string)
| VObject (props : list (string * value))
| VSymbol (description : string)
| VBigInt (n : Z).

(** [typeof x] *)
Definition typeof (x : value) : string :=
  match x with
  | VUndefined => "undefined"
  | VBoolean _ => "boolean"
  | VNumber _ => "number"
  | VString _ => "string"
  | VFunction _ _ => "function"
  | VNull | VArray _ | VDate _ | VRegExp _ | VObject _ => "object"
  | VSymbol _ => "symbol"
  | VBigInt _ => "bigint"
  end.

(** ToBoolean, as used by [!x] and [x || y]. *)
Definition truthy (x : value) : bool :=
  match x with
  | VUndefined | VNull => false
  | VBoolean b => b
  | VNumber n => negb (n =? 0)%Z
  | VString s => negb (String.eqb s "")
  | VBigInt n => negb (n =? 0)%Z
  | _ => true
  end.

Fixpoint assoc (k : string) (props : list (string * value)) : option value :=
  match props with
  | [] => None
  | (k', v) :: rest => if String.eqb k' k then Some v else assoc k rest
  end.

(** [x.k] for a truthy [x]: the own property, [undefined] when absent.
    None of the properties the library reads ([name], [test], [from],
    [to], [convert]) is inherited by a primitive, an array, a date or a
    plain object; a function's [name] is listed among its [props]. *)
Definition get (x : value) (k : string) : value :=
  match x with
  | VObject props | VFunction _ props => default VUndefined (assoc k props)
  | _ => VUndefined
  end.

(** [args[i]]: reading past the end of an array yields [undefined]. *)
Definition arg (args : list value) (i : nat) : value :=
  default VUndefined (args !! i).

(** ** Errors and results *)

Inductive js_error : Type :=
| TypeError (msg : string)
| SyntaxError (msg : string)
| Error (msg : string).

Inductive result (A : Type) : Type :=
| Return (a : A)
| Throw (e : js_error).
Arguments Return {A} a.
Arguments Throw {A} e.

#[global] Instance result_ret : MRet result := fun A a => Return a.
#[global] Instance result_bind : MBind result := fun A B k m =>
  match m with
  | Return a => k a
  | Throw e => Throw e
  end.

(** [arr.map(f)] for an [f] that may throw: the first failure aborts. *)
Fixpoint map_result {A B} (f : A -> result B) (l : list A) : result (list B) :=
  match l with
  | [] => Return []
  | a :: l' => b ← f a; bs ← map_result f l'; Return (b :: bs)
  end.

Definition dq : string := String (ascii_of_nat 34) EmptyString.

(** The failures of the specification's taxonomy, as the source raises
    them. *)
Definition UnknownType (type : string) (hint : option string) : js_error :=
  TypeError ("Unknown type " +:+ dq +:+ type +:+ dq +:+
             match hint with
             | Some h => ". Did you mean " +:+ dq +:+ h +:+ dq +:+ "?"
             | None => ""
             end).

Definition VarArgsNotLast : js_error :=
  SyntaxError ("Variable argument operator " +:+ dq +:+ "..." +:+ dq +:+
               " only allowed for the last parameter").

Definition InvalidType : js_error :=
  TypeError "Object with properties {name: string, test: function} expected".

Definition InvalidConversion : js_error :=
  TypeError "Object with properties {from: string, to: string, convert: function} expected".

Definition NoMatchingSignature (typesList : list string) (name : string) : js_error :=
  Error ("Signature " +:+ dq +:+ Str.join ", " typesList +:+ dq +:+
         " doesn't match any of the defined signatures of function " +:+
         (if String.eqb name "" then "unnamed" else name) +:+ ".").

(** What the engine raises for a member access on [undefined]; the text is
    the engine's, only the class ([TypeError]) is fixed by the language. *)
Definition UndefinedMember (prop : string) : js_error :=
  TypeError ("Cannot read property '" +:+ prop +:+ "' of undefined").

(** ** The registries of one instance *)

Module TypeEntry.
Record t : Type := { name : string; test : value -> bool }.
End TypeEntry.
Abbreviation TypeEntry := TypeEntry.t.

Definition ok (x : value) : bool := true.

(** [_types], the built-in type tests, in the order of the source. *)
Definition _types : list TypeEntry :=
  [ {| TypeEntry.name := "number";
       TypeEntry.test := fun x => String.eqb (typeof x) "number" |};
    {| TypeEntry.name := "string";
       TypeEntry.test := fun x => String.eqb (typeof x) "string" |};
    {| TypeEntry.name := "boolean";
       TypeEntry.test := fun x => String.eqb (typeof x) "boolean" |};
    {| TypeEntry.name := "Function";
       TypeEntry.test := fun x => String.eqb (typeof x) "function" |};
    {| TypeEntry.name := "Array";
       TypeEntry.test := fun x => match x with VArray _ => true | _ => false end |};
    {| TypeEntry.name := "Date";
       TypeEntry.test := fun x => match x with VDate _ => true | _ => false end |};
    {| TypeEntry.name := "RegExp";
       TypeEntry.test := fun x => match x with VRegExp _ => true | _ => false end |};
    {| TypeEntry.name := "Object";
       TypeEntry.test := fun x => String.eqb (typeof x) "object" |};
    {| TypeEntry.name := "null";
       TypeEntry.test := fun x => match x with VNull => true | _ => false end |};
    {| TypeEntry.name := "undefined";
       TypeEntry.test := fun x => match x with VUndefined => true | _ => false end |};
    {| TypeEntry.name := "any";
       TypeEntry.test := ok |} ].

(** The state reachable through the [typed] object of one instance:
    [typed.types], [typed.ignore] and [typed.conversions].  [create] never
    assigns [typed.conversions], so the property is [undefined] ([None])
    until user code assigns an array to it, as examples/type_conversion.js
    does. *)
Record instance : Type := {
  types : list TypeEntry;
  ignore : list string;
  conversions : option (list value)
}.

(** ** The parser *)

Section Parser.

(** The registries the closures of the parser read through [typed]. *)
Variable typed : instance.

(** [findTest(type)] *)
Definition findTest (type : string) : result (value -> bool) :=
  match find (fun entry => String.eqb (TypeEntry.name entry) type) (types typed) with
  | Some entry => Return (TypeEntry.test entry)
  | None =>
      let hint := find (fun entry =>
                          String.eqb (Str.toLowerCase (TypeEntry.name entry))
                                     (Str.toLowerCase type)) (types typed) in
      Throw (UnknownType type (TypeEntry.name <$> hint))
  end.

(** [notIgnore(type)]: [typed.ignore.indexOf(type) === -1] *)
Definition notIgnore (type : string) : bool :=
  negb (existsb (String.eqb type) (ignore typed)).

(** [notEmpty(str)]: [!!str] *)
Definition notEmpty (str : string) : bool := negb (String.eqb str "").

(** The type names of a parameter:
    [param.split('|').map(trim).filter(notEmpty).filter(notIgnore)] *)
Definition paramTypes (param : string) : list string :=
  List.filter notIgnore (List.filter notEmpty (map Str.trim (Str.split "|" param))).

(** [parseParam(param)] *)
Definition parseParam (param : string) : result (value -> bool) :=
  match paramTypes param with
  | [] => Return ok
  | [type0] => findTest type0
  | [type0; type1] =>
      test0 ← findTest type0;
      test1 ← findTest type1;
      Return (fun x => test0 x || test1 x)
  | types =>
      tests ← map_result findTest types;
      Return (fun x => existsb (fun t : value -> bool => t x) tests)
  end.

(** The loop [for (i = 0; i < tests.length; i++) if (!tests[i](args[i]))
    return false], started at index [i]. *)
Fixpoint testsHold (tests : list (value -> bool)) (args : list value) (i : nat) : bool :=
  match tests with
  | [] => true
  | t :: tests' => if t (arg args i) then testsHold tests' args (S i) else false
  end.

(** [initial(arr)] is [arr.splice(0, arr.length - 1)]: it returns the
    removed items and leaves the last one in [arr].  The pair is the
    returned array and the array as mutated. *)
Definition initial {A} (arr : list A) : list A * list A :=
  (take (length arr - 1) arr, drop (length arr - 1) arr).

(** [last(arr)]: [arr[arr.length - 1]] *)
Definition last {A} (arr : list A) : option A := arr !! (length arr - 1).

(** [parseParams(signature)] *)
Definition parseParams (signature : string) : result (list value -> bool) :=
  let params := map Str.trim (Str.split "," signature) in
  let varArgsIndex := Str.indexOf "..." signature in
  if negb (varArgsIndex =? -1)%Z then
    if (Str.lastIndexOf "," signature >? varArgsIndex)%Z then Throw VarArgsNotLast
    else
      let '(removed, params) := initial params in
      tests ← map_result parseParam removed;
      let varIndex := length tests in
      match last params with
      | None => Throw (UndefinedMember "replace")
      | Some lastParam =>
          lastTest ← parseParam (Str.replace_first3 lastParam);
          let testVarArgs := fun args : list value => forallb lastTest (drop varIndex args) in
          Return (fun args =>
                    testsHold tests args 0 && testVarArgs args
                    && (varIndex + 1 <=? length args))
      end
  else
    match params with
    | [] => Return (fun args => (length args =? 0))
    | [param0] =>
        test0 ← parseParam param0;
        Return (fun args => test0 (arg args 0) && (length args =? 1))
    | [param0; param1] =>
        test0 ← parseParam param0;
        test1 ← parseParam param1;
        Return (fun args =>
                  test0 (arg args 0) && test1 (arg args 1) && (length args =? 2))
    | _ =>
        tests ← map_result parseParam params;
        Return (fun args => testsHold tests args 0 && (length args =? length tests))
    end.

End Parser.

(** ** The dispatcher *)

(** One entry of [defs]. *)
Record SignatureDef : Type := {
  def_signature : string;
  def_varArg : bool;
  def_preprocess : option (list value -> list value);
  def_test : list value -> bool;
  def_fn : value
}.

(** The function returned by [createTypedFunction]: the closure over
    [name] and [defs], and the [signatures] object attached to it. *)
Record TypedFunction : Type := {
  fn_name : string;
  fn_defs : list SignatureDef;
  fn_signatures : gmap string value
}.

(** The result of a call of a typed function: a tail call
    [fn.apply(null, args)] of the selected implementation, whose result or
    exception is passed on as it is, or an exception of the dispatcher. *)
Inductive outcome : Type :=
| Apply (fn : value) (args : list value)
| Raise (e : js_error).

(** [slice(arr, start, end)] and [slice(arr, start)] for indices in range. *)
Definition slice {A} (arr : list A) (start stop : nat) : list A :=
  take (stop - start) (drop start arr).
Definition slice_from {A} (arr : list A) (start : nat) : list A :=
  drop start arr.

(** [createVarArgPreProcess(signature)] *)
Definition createVarArgPreProcess (signature : string) : list value -> list value :=
  let offset := (length (Str.split "," signature) - 1) in
  fun args => slice args 0 offset ++ [VArray (slice_from args offset)].

(** [createError(name, args)], reading [typed.types] when it is called. *)
Definition createError (typed : instance) (name : string) (args : list value) : js_error :=
  let typesList :=
    map (fun arg =>
           match find (fun entry => TypeEntry.test entry arg) (types typed) with
           | Some entry => TypeEntry.name entry
           | None => "unknown"
           end) args in
  NoMatchingSignature typesList name.

(** The body of the loop of [createTypedFunction] for one own property of
    [signatures]. *)
Definition createDef (typed : instance) (entry : string * value) : result SignatureDef :=
  let '(signature, impl) := entry in
  let varArg := negb (Str.indexOf "..." signature =? -1)%Z in
  test ← parseParams typed signature;
  Return {| def_signature := Str.remove_spaces signature;
            def_varArg := varArg;
            def_preprocess := if varArg then Some (createVarArgPreProcess signature) else None;
            def_test := test;
            def_fn := impl |}.

(** [createTypedFunction(name, signatures)].  [signatures] lists the own
    enumerable properties of the object in [for ... in] order. *)
Definition createTypedFunction (typed : instance) (name : string)
    (signatures : list (string * value)) : result TypedFunction :=
  defs ← map_result (createDef typed) signatures;
  Return {| fn_name := name;
            fn_defs := defs;
            fn_signatures :=
              foldl (fun (m : gmap string value) def =>
                       <[def_signature def := def_fn def]> m) ∅ defs |}.

(** The loop [for (i = 0; i < defs.length; i++) if (defs[i].test(arguments))]
    from index [i] on.  Besides the selected entry it returns the indices
    of the entries whose test was evaluated, in evaluation order. *)
Fixpoint scan (defs : list SignatureDef) (i : nat) (args : list value)
    : list nat * option SignatureDef :=
  match defs with
  | [] => ([], None)
  | def :: defs' =>
      if def_test def args then ([i], Some def)
      else let '(evaluated, found) := scan defs' (S i) args in (i :: evaluated, found)
  end.

(** The forwarding of a call to the selected entry. *)
Definition forward (def : SignatureDef) (args : list value) : outcome :=
  if def_varArg def then
    match def_preprocess def with
    | Some preprocess => Apply (def_fn def) (preprocess args)
    | None => Raise (TypeError "defs[i].preprocess is not a function")
    end
  else Apply (def_fn def) args.

(** A call [fn(...args)] of a typed function of the instance [typed]. *)
Definition call (typed : instance) (fn : TypedFunction) (args : list value)
    : list nat * outcome :=
  let '(evaluated, found) := scan (fn_defs fn) 0 args in
  match found with
  | Some def => (evaluated, forward def args)
  | None => (evaluated, Raise (createError typed (fn_name fn) args))
  end.

(** ** Instances and their mutators *)

(** The registries [create] sets up: [typed.types = _types],
    [typed.ignore = _ignore = []], and no [typed.conversions]. *)
Definition new_instance : instance :=
  {| types := _types; ignore := []; conversions := None |}.

Section Mutators.

(** [js_call f x] is the truthiness of the result of calling the function
    value with handle [f] on [x]; registered predicates are pure. *)
Variable js_call : fid -> value -> bool.

(** A registered object seen through the two properties the library
    reads of it, [entry.name] and [entry.test(x)]. *)
Definition entry_of (type : value) : TypeEntry :=
  {| TypeEntry.name := match get type "name" with VString s => s | _ => "" end;
     TypeEntry.test := match get type "test" with
                       | VFunction f _ => js_call f
                       | _ => fun _ => false
                       end |}.

(** [typed.addType(type)] *)
Definition addType (typed : instance) (type : value) : result instance :=
  if negb (truthy type)
     || negb (String.eqb (typeof (get type "name")) "string")
     || negb (String.eqb (typeof (get type "test")) "function")
  then Throw InvalidType
  else Return {| types := types typed ++ [entry_of type];
                 ignore := ignore typed;
                 conversions := conversions typed |}.

(** [typed.addConversion(conversion)] *)
Definition addConversion (typed : instance) (conversion : value) : result instance :=
  if negb (truthy conversion)
     || negb (String.eqb (typeof (get conversion "from")) "string")
     || negb (String.eqb (typeof (get conversion "to")) "string")
     || negb (String.eqb (typeof (get conversion "convert")) "function")
  then Throw InvalidConversion
  else match conversions typed with
       | None => Throw (UndefinedMember "push")
       | Some registry =>
           Return {| types := types typed;
                     ignore := ignore typed;
                     conversions := Some (registry ++ [conversion]) |}
       end.

(** *** The heap of instances

    Every call of [create] allocates the arrays [_types] and [_ignore]
    anew; an instance is referred to by a handle. *)

Definition handle := nat.

Definition create (w : gmap handle instance) : handle * gmap handle instance :=
  let h := fresh (dom w) in (h, <[h := new_instance]> w).

(** A mutator called on the instance [h]: the exception raised, if any,
    and the heap afterwards.  [None] when [h] is no instance of [w]. *)
Definition mutate (op : instance -> value -> result instance)
    (w : gmap handle instance) (h : handle) (x : value)
    : option (option js_error * gmap handle instance) :=
  typed ← w !! h;
  Some match op typed x with
       | Return typed' => (None, <[h := typed']> w)
       | Throw e => (Some e, w)
       end.

(** What user code does to one instance besides building functions. *)
Inductive action : Type :=
| AddType (type : value)
| AddConversion (conversion : value)
| SetConversions (registry : list value)
| Ignore (type : string).

Definition perform (typed : instance) (a : action) : instance :=
  match a with
  | AddType type =>
      match addType typed type with Return typed' => typed' | Throw _ => typed end
  | AddConversion conversion =>
      match addConversion typed conversion with Return typed' => typed' | Throw _ => typed end
  | SetConversions registry =>
      {| types := types typed; ignore := ignore typed; conversions := Some registry |}
  | Ignore type =>
      {| types := types typed; ignore := ignore typed ++ [type]; conversions := conversions typed |}
  end.

(** The states an instance goes through from its creation on. *)
Inductive reachable : instance -> Prop :=
| reachable_new : reachable new_instance
| reachable_step typed a : reachable typed -> reachable (perform typed a).

End Mutators.

(** ** Vocabulary of the statements *)

(** The typed function built from the single signature [signature] on the
    instance [typed] has the compiled test [test]. *)
Definition compiles_to (typed : instance) (signature : string)
    (test : list value -> bool) : Prop :=
  forall (fname : string) (impl : value),
  exists fn def,
    createTypedFunction typed fname [(signature, impl)] = Return fn /\
    fn_defs fn = [def] /\ def_test def = test /\ def_fn def = impl.

(** The behaviour stated for a signature of one string followed by a
    variable number of numbers. *)
Definition variadic_acceptance (signature : string) : Prop :=
  exists test,
    compiles_to new_instance signature test /\
    test [VString "a"; VNumber 1] = true /\
    test [VString "a"; VNumber 1; VNumber 2; VNumber 3] = true /\
    test [VString "a"] = false /\
    test [VNumber 1; VNumber 2] = false.

(** A test that denotes a signature without parameters. *)
Definition zero_argument_test (test : list value -> bool) : Prop :=
  test [] = true /\ forall args, (0 < length args)%nat -> test args = false.

(** [n] is the name reported for the value [x]: the name of the first
    entry of [registry] whose test accepts [x], or "unknown". *)
Definition first_type_name (registry : list TypeEntry) (x : value) (n : string) : Prop :=
  (exists pre entry post,
      registry = pre ++ entry :: post /\
      Forall (fun e => TypeEntry.test e x = false) pre /\
      TypeEntry.test entry x = true /\
      n = TypeEntry.name entry)
  \/ (Forall (fun e => TypeEntry.test e x = false) registry /\ n = "unknown").

(** No entry of the type registry is named [type]. *)
Definition absent (typed : instance) (type : string) : Prop :=
  Forall (fun entry => TypeEntry.name entry <> type) (types typed).

(** The marker [...] occurs before the last comma of the signature. *)
Definition misplacedVarArgs (signature : string) : bool :=
  negb (Str.indexOf "..." signature =? -1)%Z
  && (Str.lastIndexOf "," signature >? Str.indexOf "..." signature)%Z.

(** The parameter texts that [parseParams] hands to [parseParam], in the
    order in which it does, and the type names these resolve. *)
Definition signatureParams (signature : string) : list string :=
  let params := map Str.trim (Str.split "," signature) in
  if negb (Str.indexOf "..." signature =? -1)%Z then
    let '(removed, params) := initial params in
    removed ++ match last params with
               | Some lastParam => [Str.replace_first3 lastParam]
               | None => []
               end
  else params.

Definition signatureTypes (typed : instance) (signature : string) : list string :=
  concat (map (paramTypes typed) (signatureParams signature)).

(** An object of the shape [{name: string, test: function}]. *)
Definition is_type (type : value) : Prop :=
  exists n f props, get type "name" = VString n /\ get type "test" = VFunction f props.

(** An object of the shape [{from: string, to: string, convert: function}]. *)
Definition is_conversion (conversion : value) : Prop :=
  exists a b f props,
    get conversion "from" = VString a /\ get conversion "to" = VString b /\
    get conversion "convert" = VFunction f props.

(** ** The entry point [typed]

    [typed] is itself a typed function, built by [create] from the two
    signatures "string, Object" and "Object" on the registries of a new
    instance; its implementations are [createTypedFunction] and a function
    that takes the name from [findTypedFunctionName]. *)

(** The key of the array index [i]. *)
Definition index_key (i : nat) : string := DecimalString.NilZero.string_of_uint (Nat.to_uint i).

(** The own enumerable properties of a value whose [typeof] is "object",
    as [for (var signature in signatures)] with the [hasOwnProperty] guard
    visits them: the properties of a plain object (listed in [VObject] in
    that order), the indices of an array, none for [null], a date or a
    regular expression. *)
Definition ownProps (signatures : value) : list (string * value) :=
  match signatures with
  | VObject props => props
  | VArray items => imap (fun i item => (index_key i, item)) items
  | _ => []
  end.

(** What the engine raises for a member access on [null]. *)
Definition NullMember (prop : string) : js_error :=
  TypeError ("Cannot read property '" +:+ prop +:+ "' of null").

(** The loop of [findTypedFunctionName] over the own properties. *)
Fixpoint firstTypedFunctionName (props : list (string * value)) : result value :=
  match props with
  | [] => Return VNull
  | (signature, impl) :: props' =>
      match impl with
      | VUndefined => Throw (UndefinedMember "signatures")
      | VNull => Throw (NullMember "signatures")
      | _ =>
          if truthy (get impl "signatures") then Return (get impl "name")
          else firstTypedFunctionName props'
      end
  end.

(** [findTypedFunctionName(signatures)] *)
Definition findTypedFunctionName (signatures : value) : result value :=
  firstTypedFunctionName (ownProps signatures).

(** The implementation of the signature "Object" of [typed].  The name is
    [findTypedFunctionName(signatures) || '']; the result is [None] when
    that name is a truthy value other than a string, whose conversion to
    a string in messages is not modelled. *)
Definition typedFromSignatures (typed : instance) (signatures : value)
    : option (result TypedFunction) :=
  match findTypedFunctionName signatures with
  | Throw e => Some (Throw e)
  | Return found =>
      if truthy found then
        match found with
        | VString name => Some (createTypedFunction typed name (ownProps signatures))
        | _ => None
        end
      else Some (createTypedFunction typed "" (ownProps signatures))
  end.

(** Handles of the two implementations of [typed]. *)
Definition fid_createTypedFunction : fid := 0.
Definition fid_fromSignatures : fid := 1.

(** The typed function [typed], as [create] builds it. *)
Definition typedFunction : result TypedFunction :=
  createTypedFunction new_instance "typed"
    [("string, Object", VFunction fid_createTypedFunction []);
     ("Object", VFunction fid_fromSignatures [])].

(** A call [typed(...args)] on an instance in the state [typed]: the
    typed function it returns or the exception it raises. *)
Definition typed_call (typed : instance) (args : list value)
    : option (result TypedFunction) :=
  match typedFunction with
  | Throw e => Some (Throw e)
  | Return wrapper =>
      match (call typed wrapper args).2 with
      | Raise e => Some (Throw e)
      | Apply (VFunction f _) args' =>
          if (f =? fid_createTypedFunction)%nat then
            match arg args' 0 with
            | VString name => Some (createTypedFunction typed name (ownProps (arg args' 1)))
            | _ => None
            end
          else typedFromSignatures typed (arg args' 0)
      | Apply _ _ => None
      end
  end.

(** [obj[key] = v] on the ordered own properties of an object. *)
Fixpoint set_prop (key : string) (v : value) (props : list (string * value))
    : list (string * value) :=
  match props with
  | [] => [(key, v)]
  | (k, v') :: props' =>
      if String.eqb k key then (k, v) :: props' else (k, v') :: set_prop key v props'
  end.

(** The object [fn.signatures], filled by [defs.forEach]. *)
Definition signaturesObject (defs : list SignatureDef) : list (string * value) :=
  foldl (fun props def => set_prop (def_signature def) (def_fn def) props) [] defs.

(** A typed function as a value: the function with handle [f], its [name]
    and its [signatures]. *)
Definition toValue (f : fid) (fn : TypedFunction) : value :=
  VFunction f [("name", VString (fn_name fn));
               ("signatures", VObject (signaturesObject (fn_defs fn)))].

(** The name [createError] reports for a value on an instance whose type
    registry starts with the built-in entries: that of the first built-in
    test that accepts it, which is [any] for a symbol or a big integer. *)
Definition builtin_name (x : value) : string :=
  match x with
  | VNumber _ => "number"
  | VString _ => "string"
  | VBoolean _ => "boolean"
  | VFunction _ _ => "Function"
  | VArray _ => "Array"
  | VDate _ => "Date"
  | VRegExp _ => "RegExp"
  | VNull | VObject _ => "Object"
  | VUndefined => "undefined"
  | VSymbol _ | VBigInt _ => "any"
  end.

(** The instance with its [conversions] property set to [registry]. *)
Definition with_conversions (typed : instance) (registry : option (list value)) : instance :=
  {| types := types typed; ignore := ignore typed; conversions := registry |}.

(** The conversions that examples/type_conversion.js assigns to
    [typed.conversions]; the handles stand for its three functions. *)
Definition example_conversions : list value :=
  [ VObject [("from", VString "boolean"); ("to", VString "number"); ("convert", VFunction 10 [])];
    VObject [("from", VString "boolean"); ("to", VString "string"); ("convert", VFunction 11 [])];
    VObject [("from", VString "number"); ("to", VString "string"); ("convert", VFunction 12 [])] ].

(** An implementation that is a value with members: neither [null] nor
    [undefined]. *)
Definition has_members (x : value) : Prop := x <> VNull /\ x <> VUndefined.

(** A value without a truthy [signatures] property: no typed function. *)
Definition untyped (x : value) : Prop := truthy (get x "signatures") = false.

(** * Properties *)

(** ** Strings and lists *)

Lemma split_nonempty sep s : Str.split sep s <> [].
Proof.
  destruct s as [|c s]; simpl; [discriminate|].
  destruct (Ascii.eqb c sep); [discriminate|].
  destruct (Str.split sep s); discriminate.
Qed.

Lemma split_length_pos sep s : (1 <= length (Str.split sep s))%nat.
Proof.
  pose proof (split_nonempty sep s) as H.
  destruct (Str.split sep s); [congruence | simpl; lia].
Qed.

(** ** The built-in [Object] test *)

(** C10: the predicate registered under the name [Object] on a fresh
    instance is [typeof x === 'object'], which holds of [null], of arrays,
    of dates and of regular expressions; hence a typed function built from
    the single signature "Object" forwards the argument list [[null]] to
    its implementation. *)
Theorem Object_accepts_null (fname : string) (impl : value) :
  exists test_Object fn,
    findTest new_instance "Object" = Return test_Object /\
    test_Object VNull = true /\
    (forall items, test_Object (VArray items) = true) /\
    (forall time, test_Object (VDate time) = true) /\
    (forall source, test_Object (VRegExp source) = true) /\
    createTypedFunction new_instance fname [("Object", impl)] = Return fn /\
    call new_instance fn [VNull] = ([0%nat], Apply impl [VNull]).
Proof.
  eexists. eexists.
  split; [reflexivity|].
  repeat split; reflexivity.
Qed.

(** ** Compilation of concrete signature texts *)

Lemma compiles_to_inj typed signature test1 test2 :
  compiles_to typed signature test1 -> compiles_to typed signature test2 ->
  test1 = test2.
Proof.
  intros H1 H2.
  destruct (H1 "" VUndefined) as (fn1 & def1 & E1 & D1 & T1 & _).
  destruct (H2 "" VUndefined) as (fn2 & def2 & E2 & D2 & T2 & _).
  rewrite E1 in E2. injection E2 as ->.
  rewrite D1 in D2. injection D2 as ->.
  congruence.
Qed.

Lemma compiles_to_Return typed signature test :
  compiles_to typed signature test ->
  exists test', parseParams typed signature = Return test'.
Proof.
  intros H. destruct (H "" VUndefined) as (fn & def & E & _).
  unfold createTypedFunction in E. simpl in E.
  destruct (parseParams typed signature) as [test'|e]; [eauto | discriminate].
Qed.

(** The marker written after the type name: the first three characters of
    the last parameter are removed, and what is left of it is looked up. *)
Lemma postfix_marker_unknown_type :
  parseParams new_instance "string, number..." = Throw (UnknownType "ber..." None).
Proof. reflexivity. Qed.

(** C1, as stated, fails: the text "string, number..." does not compile. *)
Lemma postfix_marker_rejected : ~ variadic_acceptance "string, number...".
Proof.
  intros (test & H & _).
  apply compiles_to_Return in H as [test' H].
  rewrite postfix_marker_unknown_type in H. discriminate.
Qed.

(** C1, amended: with the marker written before the type name of the last
    parameter, "string, ...number" compiles, and its test accepts
    ["a", 1] and ["a", 1, 2, 3] and rejects ["a"] and [1, 2]. *)
Theorem prefix_marker_accepted :
  variadic_acceptance "string, ...number".
Proof.
  eexists. split.
  - intros fname impl. eexists. eexists.
    split; [reflexivity|]. split; [reflexivity|]. split; [|reflexivity].
    vm_compute. reflexivity.
  - repeat split; reflexivity.
Qed.

(** C3: what the source does with the empty signature text.  The text is
    split into one empty parameter, so the branch for no parameters is
    never taken: on every instance the test compiled from "" accepts every
    argument list of length one and rejects the empty one. *)
Theorem empty_signature_takes_one_argument (typed : instance) :
  exists test,
    compiles_to typed "" test /\
    test [] = false /\
    (forall x, test [x] = true) /\
    ~ zero_argument_test test.
Proof.
  exists (fun args => ok (arg args 0) && (length args =? 1)%nat).
  split.
  - intros fname impl. eexists. eexists.
    split; [reflexivity|]. split; [reflexivity|]. split; reflexivity.
  - split; [reflexivity|]. split; [reflexivity|].
    intros [H _]. discriminate H.
Qed.

(** ** The result monad *)

Lemma bind_Return {A B} (m : result A) (k : A -> result B) (b : B) :
  (m ≫= k) = Return b -> exists a, m = Return a /\ k a = Return b.
Proof. destruct m as [a|e]; simpl; [eauto | discriminate]. Qed.

Lemma map_result_Return {A B} (f : A -> result B) (l : list A) (bs : list B) :
  map_result f l = Return bs -> Forall2 (fun a b => f a = Return b) l bs.
Proof.
  revert bs. induction l as [|a l IH]; simpl; intros bs H.
  - injection H as <-. constructor.
  - apply bind_Return in H as (b & Hb & H).
    apply bind_Return in H as (bs' & Hbs & H).
    injection H as <-. constructor; auto.
Qed.

Lemma map_result_length {A B} (f : A -> result B) (l : list A) (bs : list B) :
  map_result f l = Return bs -> length bs = length l.
Proof. intros H%map_result_Return. symmetry. eapply Forall2_length, H. Qed.


(** ** Arity of signatures without a variable-arguments marker *)

Lemma parseParams_fixed_arity typed signature test args :
  Str.indexOf "..." signature = (-1)%Z ->
  parseParams typed signature = Return test ->
  test args = true ->
  length args = length (Str.split "," signature).
Proof.
  intros Hvar Hparse Hacc. unfold parseParams in Hparse.
  rewrite Hvar in Hparse. simpl in Hparse.
  rewrite <- (length_map Str.trim).
  destruct (map Str.trim (Str.split "," signature)) as [|p0 [|p1 [|p2 params]]].
  - injection Hparse as <-. by apply Nat.eqb_eq in Hacc.
  - apply bind_Return in Hparse as (test0 & _ & Hparse).
    injection Hparse as <-.
    apply andb_true_iff in Hacc as [_ Hlen]. by apply Nat.eqb_eq in Hlen.
  - apply bind_Return in Hparse as (test0 & _ & Hparse).
    apply bind_Return in Hparse as (test1 & _ & Hparse).
    injection Hparse as <-.
    apply andb_true_iff in Hacc as [_ Hlen]. by apply Nat.eqb_eq in Hlen.
  - apply bind_Return in Hparse as (tests & Htests & Hparse).
    injection Hparse as <-.
    apply andb_true_iff in Hacc as [_ Hlen]. apply Nat.eqb_eq in Hlen.
    rewrite Hlen. by apply map_result_length in Htests.
Qed.

(** ** The scan of the definitions *)

Lemma scan_first defs i args pre def post :
  defs = pre ++ def :: post ->
  Forall (fun d => def_test d args = false) pre ->
  def_test def args = true ->
  scan defs i args = (seq i (S (length pre)), Some def).
Proof.
  intros -> Hpre Hdef. revert i.
  induction Hpre as [|d pre Hd _ IH]; intros i; simpl.
  - by rewrite Hdef.
  - rewrite Hd, IH. reflexivity.
Qed.

Lemma scan_none defs i args :
  Forall (fun d => def_test d args = false) defs ->
  scan defs i args = (seq i (length defs), None).
Proof.
  intros H. revert i. induction H as [|d defs Hd _ IH]; intros i; simpl; [done|].
  rewrite Hd, IH. reflexivity.
Qed.

Lemma createDef_fields typed signature impl def :
  createDef typed (signature, impl) = Return def ->
  def_fn def = impl /\
  def_signature def = Str.remove_spaces signature /\
  parseParams typed signature = Return (def_test def) /\
  (def_varArg def = true -> def_preprocess def = Some (createVarArgPreProcess signature)).
Proof.
  unfold createDef. intros H.
  apply bind_Return in H as (test & Htest & H). injection H as <-. simpl.
  repeat split; auto.
  intros ->. reflexivity.
Qed.

(** Registration order is kept: the definitions of a typed function are
    the compiled signatures, one for one, in the order of the input. *)
Lemma createTypedFunction_defs typed fname signatures fn :
  createTypedFunction typed fname signatures = Return fn ->
  fn_name fn = fname /\
  Forall2 (fun entry def => createDef typed entry = Return def) signatures (fn_defs fn).
Proof.
  unfold createTypedFunction. intros H.
  apply bind_Return in H as (defs & Hdefs & H). injection H as <-. simpl.
  split; [done|]. by apply map_result_Return.
Qed.

Lemma find_None_Forall {A} (p : A -> bool) (l : list A) :
  find p l = None <-> Forall (fun x => p x = false) l.
Proof.
  induction l as [|a l IH]; simpl.
  - split; [constructor | done].
  - destruct (p a) eqn:Ha.
    + split; [discriminate|]. intros H. inversion H; congruence.
    + rewrite IH. split; [by constructor | by inversion 1].
Qed.

Lemma find_Some_split {A} (p : A -> bool) (l : list A) (x : A) :
  find p l = Some x ->
  exists pre post,
    l = pre ++ x :: post /\ Forall (fun y => p y = false) pre /\ p x = true.
Proof.
  induction l as [|a l IH]; simpl; [discriminate|].
  destruct (p a) eqn:Ha.
  - intros [= <-]. exists [], l. auto.
  - intros (pre & post & -> & Hpre & Hx)%IH.
    exists (a :: pre), post. auto.
Qed.

(** ** Dispatch *)

(** C6: a typed function built from one signature without the marker
    [...], whose text splits at its commas into N parameters (N >= 1),
    rejects every argument list whose length is not N, whatever the
    arguments are: the compiled test is false on it and the call raises
    the no-match error. *)
Theorem fixed_arity_rejects_other_lengths typed fname signature impl fn args :
  Str.indexOf "..." signature = (-1)%Z ->
  createTypedFunction typed fname [(signature, impl)] = Return fn ->
  length args <> length (Str.split "," signature) ->
  (1 <= length (Str.split "," signature))%nat /\
  (exists def, fn_defs fn = [def] /\ def_test def args = false) /\
  forall typed', call typed' fn args = ([0%nat], Raise (createError typed' fname args)).
Proof.
  intros Hvar Hfn Hlen.
  split; [apply split_length_pos|].
  apply createTypedFunction_defs in Hfn as [Hname Hdefs].
  inversion Hdefs as [|? def ? defs Hdef Hnil Heq1 Heq2]; subst.
  inversion Hnil; subst.
  apply createDef_fields in Hdef as (_ & _ & Hparse & _).
  assert (def_test def args = false) as Hrej.
  { destruct (def_test def args) eqn:Hacc; [|done].
    exfalso. apply Hlen. eapply parseParams_fixed_arity; eauto. }
  split; [eauto|].
  intros typed'. unfold call. rewrite <- Heq2. simpl. by rewrite Hrej.
Qed.

Lemma fixed_arity_witness :
  exists fn,
    createTypedFunction new_instance "f" [("number, string", VFunction 0 [])] = Return fn /\
    call new_instance fn [VNumber 1]
    = ([0%nat], Raise (createError new_instance "f" [VNumber 1])).
Proof.
  eexists. split; [reflexivity|].
  eapply (fixed_arity_rejects_other_lengths new_instance "f" "number, string").
  - reflexivity.
  - reflexivity.
  - simpl. lia.
Defined.

(** C4: dispatch is first-registered-wins.  The definitions of a typed
    function are in the order of the signatures it was built from; a call
    evaluates the tests from the first definition on, stops at the first
    one that accepts the arguments (the tests evaluated are those of the
    indices 0 to its index, none after it) and forwards the call to its
    implementation.  For the signatures "any" and "number", in that order,
    a call with one number goes to the implementation of "any" and the
    test of "number" is not evaluated. *)
Theorem first_registered_wins :
  (forall typed fn args pre def post,
      fn_defs fn = pre ++ def :: post ->
      Forall (fun d => def_test d args = false) pre ->
      def_test def args = true ->
      call typed fn args = (seq 0 (S (length pre)), forward def args)) /\
  (forall typed fname signatures fn,
      createTypedFunction typed fname signatures = Return fn ->
      map def_fn (fn_defs fn) = map snd signatures) /\
  (forall fname impl_any impl_number n,
      exists fn,
        createTypedFunction new_instance fname
          [("any", impl_any); ("number", impl_number)] = Return fn /\
        call new_instance fn [VNumber n] = ([0%nat], Apply impl_any [VNumber n])).
Proof.
  split; [|split].
  - intros typed fn args pre def post Hdefs Hpre Hdef.
    unfold call. by rewrite (scan_first _ 0 args pre def post Hdefs Hpre Hdef).
  - intros typed fname signatures fn [_ H]%createTypedFunction_defs.
    induction H as [|[signature impl] def ? ? Hdef _ IH]; simpl; [done|].
    apply createDef_fields in Hdef as (-> & _). by rewrite IH.
  - intros fname impl_any impl_number n. eexists. split; reflexivity.
Qed.

Lemma first_registered_wins_witness :
  exists fn,
    createTypedFunction new_instance "f"
      [("any", VFunction 0 []); ("number", VFunction 1 [])] = Return fn /\
    call new_instance fn [VNumber 7] = ([0%nat], Apply (VFunction 0 []) [VNumber 7]).
Proof.
  eexists. split; [reflexivity|].
  match goal with
  | |- call _ ?fn _ = _ =>
      exact (proj1 first_registered_wins new_instance fn [VNumber 7] [] _ _
               eq_refl (List.Forall_nil _) eq_refl)
  end.
Defined.

Lemma createError_names typed fname args :
  exists typesList,
    Forall2 (first_type_name (types typed)) args typesList /\
    createError typed fname args = NoMatchingSignature typesList fname.
Proof.
  unfold createError. eexists. split; [|reflexivity].
  induction args as [|x args IH]; simpl; constructor; [|exact IH].
  destruct (find _ _) as [entry|] eqn:Hfind.
  - apply find_Some_split in Hfind as (pre & post & Hsplit & Hpre & Hx).
    left. exists pre, entry, post. auto.
  - apply find_None_Forall in Hfind. right. auto.
Qed.

(** C5: when the test of no definition accepts the arguments, the call
    evaluates every test and raises an [Error] whose message is
    [Signature "T1, ..., Tn" doesn't match any of the defined signatures
    of function NAME.], where Ti is the name of the first entry of the
    type registry (as it is at the time of the call) whose test accepts
    the i-th argument, or "unknown" when no entry does, and NAME is the
    name of the typed function, or "unnamed" when the name is empty.  A
    typed function built from "string" and "number" and called with a
    boolean reports the list "boolean". *)
Theorem no_match_diagnostic :
  (forall typed fn args,
      Forall (fun def => def_test def args = false) (fn_defs fn) ->
      exists typesList,
        Forall2 (first_type_name (types typed)) args typesList /\
        call typed fn args
        = (seq 0 (length (fn_defs fn)),
           Raise (Error ("Signature " +:+ dq +:+ Str.join ", " typesList +:+ dq +:+
                         " doesn't match any of the defined signatures of function " +:+
                         (if String.eqb (fn_name fn) "" then "unnamed" else fn_name fn)
                         +:+ ".")))) /\
  (forall impl_string impl_number b,
      exists fn,
        createTypedFunction new_instance ""
          [("string", impl_string); ("number", impl_number)] = Return fn /\
        call new_instance fn [VBoolean b]
        = ([0; 1]%nat,
           Raise (Error ("Signature " +:+ dq +:+ "boolean" +:+ dq +:+
                         " doesn't match any of the defined signatures of function unnamed.")))).
Proof.
  split.
  - intros typed fn args Hnone.
    destruct (createError_names typed (fn_name fn) args) as (typesList & Hnames & Herr).
    exists typesList. split; [exact Hnames|].
    unfold call. rewrite (scan_none _ 0 args Hnone), Herr. reflexivity.
  - intros impl_string impl_number b. eexists. split; reflexivity.
Qed.

Lemma no_match_diagnostic_witness :
  exists fn,
    createTypedFunction new_instance "sum"
      [("string", VFunction 0 []); ("number", VFunction 1 [])] = Return fn /\
    exists typesList,
      Forall2 (first_type_name _types) [VBoolean true; VNull] typesList /\
      call new_instance fn [VBoolean true; VNull]
      = ([0; 1]%nat,
         Raise (Error ("Signature " +:+ dq +:+ Str.join ", " typesList +:+ dq +:+
                       " doesn't match any of the defined signatures of function sum."))).
Proof.
  eexists. split; [reflexivity|].
  match goal with
  | |- exists _, _ /\ call _ ?fn _ = _ =>
      apply (proj1 no_match_diagnostic new_instance fn [VBoolean true; VNull])
  end.
  repeat constructor.
Defined.

(** ** Unknown type names *)


Lemma findTest_cases typed type :
  (exists t, findTest typed type = Return t) \/
  (absent typed type /\ exists hint, findTest typed type = Throw (UnknownType type hint)).
Proof.
  unfold findTest.
  destruct (find (fun entry => String.eqb (TypeEntry.name entry) type) (types typed))
    as [entry|] eqn:Hfind; [eauto|].
  right. split; [|eauto].
  apply find_None_Forall in Hfind.
  eapply Forall_impl; [exact Hfind|]. simpl.
  intros entry Hne. by apply String.eqb_neq.
Qed.

(** The exceptions of [parseParam] are those of looking its type names up
    one after the other. *)
Lemma parseParam_Throw typed param e :
  map_result (findTest typed) (paramTypes typed param) = Throw e ->
  parseParam typed param = Throw e.
Proof.
  unfold parseParam.
  destruct (paramTypes typed param) as [|t0 [|t1 [|t2 ts]]]; simpl; [done|..].
  - destruct (findTest typed t0); simpl; congruence.
  - destruct (findTest typed t0); simpl; [|congruence].
    destruct (findTest typed t1); simpl; congruence.
  - intros ->. reflexivity.
Qed.

Lemma parseParam_cases typed param :
  (exists t, parseParam typed param = Return t) \/
  (exists type hint,
      In type (paramTypes typed param) /\ absent typed type /\
      parseParam typed param = Throw (UnknownType type hint)).
Proof.
  destruct (map_result (findTest typed) (paramTypes typed param)) as [tests|e] eqn:Hmap.
  - left. unfold parseParam.
    destruct (paramTypes typed param) as [|t0 [|t1 [|t2 ts]]]; simpl in *; [eauto|..].
    + destruct (findTest typed t0); simpl in *; [eauto | discriminate].
    + destruct (findTest typed t0); simpl in *; [|discriminate].
      destruct (findTest typed t1); simpl in *; [eauto | discriminate].
    + rewrite Hmap. simpl. eauto.
  - right.
    assert (exists type hint,
               In type (paramTypes typed param) /\ absent typed type /\
               e = UnknownType type hint) as (type & hint & Hin & Habs & ->).
    { clear -Hmap. revert e Hmap.
      induction (paramTypes typed param) as [|t ts IH]; simpl; intros e Hmap;
        [discriminate|].
      destruct (findTest_cases typed t) as [[f Hf]|[Habs [hint Hf]]];
        rewrite Hf in Hmap; simpl in Hmap.
      - destruct (map_result (findTest typed) ts) as [fs|e'] eqn:Hts; simpl in Hmap;
          [discriminate|].
        injection Hmap as <-.
        destruct (IH e' eq_refl) as (type & hint & Hin & Habs & ->). eauto 8.
      - injection Hmap as <-. eauto 8. }
    exists type, hint. split; [done|]. split; [done|].
    by apply parseParam_Throw.
Qed.


Lemma map_result_app {A B} (f : A -> result B) (l1 l2 : list A) :
  map_result f (l1 ++ l2)
  = (bs1 ← map_result f l1; bs2 ← map_result f l2; Return (bs1 ++ bs2)).
Proof.
  induction l1 as [|a l1 IH]; simpl.
  - by destruct (map_result f l2).
  - destruct (f a); simpl; [|done]. rewrite IH.
    destruct (map_result f l1); simpl; [|done].
    by destruct (map_result f l2).
Qed.

Lemma misplaced_is_SyntaxError typed signature :
  misplacedVarArgs signature = true ->
  parseParams typed signature = Throw VarArgsNotLast.
Proof.
  unfold misplacedVarArgs, parseParams.
  intros [-> ->]%andb_true_iff. reflexivity.
Qed.

(** The exceptions of [parseParams], the misplaced marker apart, are those
    of compiling its parameters one after the other. *)
Lemma parseParams_Throw typed signature e :
  misplacedVarArgs signature = false ->
  map_result (parseParam typed) (signatureParams signature) = Throw e ->
  parseParams typed signature = Throw e.
Proof.
  unfold misplacedVarArgs, parseParams, signatureParams.
  destruct (negb (Str.indexOf "..." signature =? -1)%Z); simpl.
  - intros ->. unfold initial.
    set (params := map Str.trim (Str.split "," signature)).
    generalize (take (length params - 1) params) as removed.
    generalize (drop (length params - 1) params) as params'.
    intros params' removed. rewrite map_result_app.
    destruct (map_result (parseParam typed) removed) as [tests|e']; simpl;
      [|congruence].
    destruct (last params') as [lastParam|]; simpl; [|congruence].
    destruct (parseParam typed (Str.replace_first3 lastParam)); simpl; congruence.
  - intros _.
    destruct (map Str.trim (Str.split "," signature)) as [|p0 [|p1 [|p2 params]]];
      simpl; [done|..].
    + destruct (parseParam typed p0); simpl; congruence.
    + destruct (parseParam typed p0); simpl; [|congruence].
      destruct (parseParam typed p1); simpl; congruence.
    + intros ->. reflexivity.
Qed.




Example findTest_String :
  findTest new_instance "String" = Throw (UnknownType "String" (Some "string")).
Proof. reflexivity. Qed.


(** ** The registries *)

Lemma is_type_truthy type : is_type type -> truthy type = true.
Proof.
  intros (n & f & props & Hname & _).
  destruct type; simpl in *; try discriminate; reflexivity.
Qed.

Lemma is_conversion_truthy conversion : is_conversion conversion -> truthy conversion = true.
Proof.
  intros (a & b & f & props & Hfrom & _).
  destruct conversion; simpl in *; try discriminate; reflexivity.
Qed.

Lemma typeof_string x : String.eqb (typeof x) "string" = true <-> exists s, x = VString s.
Proof.
  split; [|intros [s ->]; reflexivity].
  destruct x; simpl; try discriminate. eauto.
Qed.

Lemma typeof_function x :
  String.eqb (typeof x) "function" = true <-> exists f props, x = VFunction f props.
Proof.
  split; [|intros (f & props & ->); reflexivity].
  destruct x; simpl; try discriminate. eauto.
Qed.

(** [addType] accepts exactly the objects of the shape
    [{name: string, test: function}], and appends them. *)
Lemma addType_spec js_call typed type :
  (is_type type ->
   addType js_call typed type
   = Return {| types := types typed ++ [entry_of js_call type];
               ignore := ignore typed;
               conversions := conversions typed |}) /\
  (~ is_type type -> addType js_call typed type = Throw InvalidType).
Proof.
  unfold addType. split.
  - intros Htype. rewrite (is_type_truthy type Htype).
    destruct Htype as (n & f & props & -> & ->). reflexivity.
  - intros Hno.
    destruct (negb (truthy type) || _ || _) eqn:Hcheck; [reflexivity|].
    exfalso. apply Hno.
    apply orb_false_iff in Hcheck as [Hcheck Htest].
    apply orb_false_iff in Hcheck as [_ Hname].
    apply negb_false_iff, typeof_string in Hname as [n Hname].
    apply negb_false_iff, typeof_function in Htest as (f & props & Htest).
    exists n, f, props. auto.
Qed.

(** With a conversion registry in place, [addConversion] accepts exactly
    the objects of the shape [{from: string, to: string, convert:
    function}], and appends them. *)
Lemma addConversion_spec typed registry conversion :
  conversions typed = Some registry ->
  (is_conversion conversion ->
   addConversion typed conversion
   = Return {| types := types typed;
               ignore := ignore typed;
               conversions := Some (registry ++ [conversion]) |}) /\
  (~ is_conversion conversion -> addConversion typed conversion = Throw InvalidConversion).
Proof.
  intros Hreg. unfold addConversion. rewrite Hreg. split.
  - intros Hconv. rewrite (is_conversion_truthy conversion Hconv).
    destruct Hconv as (a & b & f & props & -> & -> & ->). reflexivity.
  - intros Hno.
    destruct (negb (truthy conversion) || _ || _ || _) eqn:Hcheck; [reflexivity|].
    exfalso. apply Hno.
    apply orb_false_iff in Hcheck as [Hcheck Hconvert].
    apply orb_false_iff in Hcheck as [Hcheck Hto].
    apply orb_false_iff in Hcheck as [_ Hfrom].
    apply negb_false_iff, typeof_string in Hfrom as [a Hfrom].
    apply negb_false_iff, typeof_string in Hto as [b Hto].
    apply negb_false_iff, typeof_function in Hconvert as (f & props & Hconvert).
    exists a, b, f, props. auto.
Qed.

(** C2: [addConversion] on an instance as [create] returns it.  The entry
    passes the check of its shape, and the append then fails, because
    [create] sets up no conversion registry: the call raises the
    [TypeError] of a member access on [undefined], for every entry of the
    shape [{from: string, to: string, convert: function}]. *)
Theorem addConversion_on_new_instance conversion :
  is_conversion conversion ->
  addConversion new_instance conversion = Throw (UndefinedMember "push").
Proof.
  intros Hconv. unfold addConversion.
  rewrite (is_conversion_truthy conversion Hconv).
  destruct Hconv as (a & b & f & props & -> & -> & ->). reflexivity.
Qed.

Lemma addConversion_on_new_instance_witness :
  addConversion new_instance
    (VObject [("from", VString "boolean"); ("to", VString "number");
              ("convert", VFunction 0 [])])
  = Throw (UndefinedMember "push").
Proof.
  apply addConversion_on_new_instance.
  exists "boolean", "number", 0%nat, []. repeat split; reflexivity.
Defined.

(** ** Independence of instances *)

Lemma create_fresh (w : gmap handle instance) :
  w !! (create w).1 = None /\
  (create w).2 !! (create w).1 = Some new_instance /\
  forall h, h <> (create w).1 -> (create w).2 !! h = w !! h.
Proof.
  unfold create. simpl. split; [|split].
  - apply not_elem_of_dom, is_fresh.
  - apply lookup_insert_eq.
  - intros h Hne. by apply lookup_insert_ne.
Qed.

Lemma mutate_frame op (w w' : gmap handle instance) h h' x r :
  mutate op w h x = Some (r, w') -> h <> h' -> w' !! h' = w !! h'.
Proof.
  unfold mutate. destruct (w !! h) as [typed|]; simpl; [|done].
  destruct (op typed x); intros [= <- <-] Hne; [|done].
  by apply lookup_insert_ne.
Qed.

(** The type registries of instances are independent.
    [create] allocates an instance of its own: the handle it returns
    refers to no instance that existed, the new instance has the built-in
    registries, and the instances that existed are as they were.  For two
    distinct instances, [addType] called on the first with an object of
    the shape [{name: string, test: function}] appends the entry to the
    type registry of the first and leaves the second instance, with its
    three registries, as it was; so it is for two instances obtained from
    two calls of [create]. *)
Theorem instances_are_independent (js_call : fid -> value -> bool) :
  (forall w : gmap handle instance,
      w !! (create w).1 = None /\
      (create w).2 !! (create w).1 = Some new_instance /\
      forall h, h <> (create w).1 -> (create w).2 !! h = w !! h) /\
  (forall (w : gmap handle instance) h1 h2 typed1 type,
      w !! h1 = Some typed1 -> h1 <> h2 -> is_type type ->
      exists typed1' w',
        mutate (addType js_call) w h1 type = Some (None, w') /\
        w' !! h1 = Some typed1' /\
        types typed1' = types typed1 ++ [entry_of js_call type] /\
        w' !! h2 = w !! h2) /\
  (forall (w : gmap handle instance) type,
      is_type type ->
      let h1 := (create w).1 in
      let w1 := (create w).2 in
      let h2 := (create w1).1 in
      let w2 := (create w1).2 in
      h1 <> h2 /\
      exists w3,
        mutate (addType js_call) w2 h1 type = Some (None, w3) /\
        types <$> w3 !! h1 = Some (_types ++ [entry_of js_call type]) /\
        w3 !! h2 = Some new_instance).
Proof.
  assert (forall (w : gmap handle instance) h1 h2 typed1 type,
             w !! h1 = Some typed1 -> h1 <> h2 -> is_type type ->
             exists typed1' w',
               mutate (addType js_call) w h1 type = Some (None, w') /\
               w' !! h1 = Some typed1' /\
               types typed1' = types typed1 ++ [entry_of js_call type] /\
               w' !! h2 = w !! h2) as Hadd.
  { intros w h1 h2 typed1 type Hh1 Hne Htype.
    eexists. eexists. unfold mutate. rewrite Hh1. simpl.
    rewrite (proj1 (addType_spec js_call typed1 type) Htype).
    split; [reflexivity|]. split; [apply lookup_insert_eq|].
    split; [reflexivity|]. by apply lookup_insert_ne. }
  split; [exact create_fresh | split; [exact Hadd|]].
  intros w type Htype h1 w1 h2 w2.
  destruct (create_fresh w) as (_ & Hnew1 & _).
  destruct (create_fresh w1) as (Hfresh2 & Hnew2 & Hold2).
  fold h1 w1 in Hnew1. fold h2 in Hfresh2, Hnew2, Hold2. fold w2 in Hnew2, Hold2.
  assert (h1 <> h2) as Hne by congruence.
  split; [exact Hne|].
  assert (w2 !! h1 = Some new_instance) as Hh1 by (rewrite Hold2; done).
  destruct (Hadd w2 h1 h2 new_instance type Hh1 Hne Htype)
    as (typed1' & w3 & Hmut & Hw3 & Htypes & Hother).
  exists w3. split; [exact Hmut|]. split.
  - rewrite Hw3. simpl. by rewrite Htypes.
  - by rewrite Hother.
Qed.

Lemma instances_are_independent_example :
  let js_call := fun (_ : fid) (x : value) => String.eqb (typeof x) "object" in
  let type := VObject [("name", VString "Person"); ("test", VFunction 0 [])] in
  let h1 := (create ∅).1 in
  let w1 := (create ∅).2 in
  let h2 := (create w1).1 in
  let w2 := (create w1).2 in
  h1 <> h2 /\
  exists w3,
    mutate (addType js_call) w2 h1 type = Some (None, w3) /\
    types <$> w3 !! h1 = Some (_types ++ [entry_of js_call type]) /\
    w3 !! h2 = Some new_instance.
Proof.
  intros js_call type.
  apply (proj2 (proj2 (instances_are_independent js_call)) ∅ type).
  exists "Person", 0%nat, []. split; reflexivity.
Defined.

(** C8: what [create] sets up.  The instance [create] returns has its
    own type registry (the built-in entries) and its own, empty, ignore
    list, and no conversion registry: its [conversions] property is
    [undefined], so that [addConversion], called on it with an object of
    the shape [{from: string, to: string, convert: function}], raises the
    [TypeError] of a member access on [undefined] and leaves every
    instance as it was. *)
Theorem create_sets_up_no_conversion_registry (w : gmap handle instance) :
  exists typed,
    (create w).2 !! (create w).1 = Some typed /\
    types typed = _types /\ ignore typed = [] /\ conversions typed = None /\
    forall conversion,
      is_conversion conversion ->
      mutate addConversion (create w).2 (create w).1 conversion
      = Some (Some (UndefinedMember "push"), (create w).2).
Proof.
  exists new_instance.
  destruct (create_fresh w) as (_ & Hnew & _).
  split; [exact Hnew|]. split; [reflexivity|]. split; [reflexivity|].
  split; [reflexivity|].
  intros conversion Hconv. unfold mutate. rewrite Hnew. simpl.
  unfold addConversion. rewrite (is_conversion_truthy conversion Hconv).
  destruct Hconv as (a & b & f & props & -> & -> & ->). reflexivity.
Qed.

Lemma create_sets_up_no_conversion_registry_witness :
  let conversion := VObject [("from", VString "number"); ("to", VString "string");
                             ("convert", VFunction 0 [])] in
  mutate addConversion (create ∅).2 (create ∅).1 conversion
  = Some (Some (UndefinedMember "push"), (create ∅).2).
Proof.
  intros conversion.
  destruct (create_sets_up_no_conversion_registry ∅) as (typed & _ & _ & _ & _ & H).
  apply H. exists "number", "string", 0%nat, []. repeat split; reflexivity.
Defined.

(** ** Typed functions and later mutations of the registries *)

Lemma find_app_l {A} (p : A -> bool) (l1 l2 : list A) (x : A) :
  find p l1 = Some x -> find p (l1 ++ l2) = Some x.
Proof.
  induction l1 as [|a l1 IH]; simpl; [discriminate|].
  destruct (p a); [done | exact IH].
Qed.

(** Every value is accepted by a built-in entry ([any] accepts all). *)
Lemma builtin_covers x :
  exists entry, find (fun entry => TypeEntry.test entry x) _types = Some entry.
Proof.
  destruct (find (fun entry => TypeEntry.test entry x) _types) as [entry|] eqn:Hfind;
    [eauto|].
  apply find_None_Forall in Hfind. rewrite List.Forall_forall in Hfind.
  specialize (Hfind {| TypeEntry.name := "any"; TypeEntry.test := ok |}).
  simpl in Hfind. discriminate Hfind. tauto.
Qed.

Lemma perform_types js_call typed a :
  exists extra, types (perform js_call typed a) = types typed ++ extra.
Proof.
  destruct a as [type|conversion|registry|type]; simpl.
  - unfold addType. destruct (_ || _ || _); simpl; [exists []|eexists]; [|done].
    by rewrite app_nil_r.
  - unfold addConversion. destruct (_ || _ || _ || _); simpl.
    + exists []. by rewrite app_nil_r.
    + destruct (conversions typed); simpl; exists []; by rewrite app_nil_r.
  - exists []. by rewrite app_nil_r.
  - exists []. by rewrite app_nil_r.
Qed.

(** The type registry of an instance is the built-in list followed by
    what [addType] has appended. *)
Lemma reachable_types js_call typed :
  reachable js_call typed -> exists extra, types typed = _types ++ extra.
Proof.
  induction 1 as [|typed a _ [extra IH]].
  - exists []. by rewrite app_nil_r.
  - destruct (perform_types js_call typed a) as [extra' ->].
    exists (extra ++ extra'). by rewrite IH, app_assoc.
Qed.

Lemma reachable_foldl js_call typed actions :
  reachable js_call typed -> reachable js_call (foldl (perform js_call) typed actions).
Proof.
  revert typed. induction actions as [|a actions IH]; intros typed H; simpl; [done|].
  apply IH. by constructor.
Qed.

Lemma createError_stable js_call typed a fname args :
  reachable js_call typed ->
  createError (perform js_call typed a) fname args = createError typed fname args.
Proof.
  intros [extra Hreg]%reachable_types.
  destruct (perform_types js_call typed a) as [extra' Hreg'].
  unfold createError. rewrite Hreg', Hreg.
  apply (f_equal (fun typesList => NoMatchingSignature typesList fname)).
  apply map_ext. intros x.
  destruct (builtin_covers x) as [entry Hfind].
  rewrite (find_app_l _ _ extra _ Hfind).
  by rewrite (find_app_l _ _ extra' _ (find_app_l _ _ extra _ Hfind)).
Qed.

(** C9: a typed function built on an instance behaves after the instance
    has gone through further mutations, and then through a call of
    [addType] or of [addConversion], as it did before that call: every
    call of it evaluates the same tests, forwards to the same
    implementation with the same arguments, or raises the same no-match
    error.  (A mutator that raises leaves the registries as they are.) *)
Theorem mutators_leave_built_functions js_call typed0 fname signatures fn actions :
  reachable js_call typed0 ->
  createTypedFunction typed0 fname signatures = Return fn ->
  forall x args,
    let typed := foldl (perform js_call) typed0 actions in
    (forall typed', addType js_call typed x = Return typed' ->
                    call typed' fn args = call typed fn args) /\
    (forall typed', addConversion typed x = Return typed' ->
                    call typed' fn args = call typed fn args).
Proof.
  intros Hreach _ x args typed.
  assert (reachable js_call typed) as Htyped by by apply reachable_foldl.
  assert (forall a, call (perform js_call typed a) fn args = call typed fn args) as Hcall.
  { intros a. unfold call. destruct (scan (fn_defs fn) 0 args) as [evaluated [def|]];
      [done|]. by rewrite createError_stable. }
  split; intros typed' Hmut.
  - specialize (Hcall (AddType x)). simpl in Hcall. by rewrite Hmut in Hcall.
  - specialize (Hcall (AddConversion x)). simpl in Hcall. by rewrite Hmut in Hcall.
Qed.

Lemma mutators_leave_built_functions_witness :
  let js_call := fun (_ : fid) (x : value) => String.eqb (typeof x) "object" in
  let type := VObject [("name", VString "Person"); ("test", VFunction 0 [])] in
  exists fn typed',
    createTypedFunction new_instance "f" [("number", VFunction 1 [])] = Return fn /\
    addType js_call new_instance type = Return typed' /\
    call typed' fn [VObject []] = call new_instance fn [VObject []].
Proof.
  intros js_call type. eexists. eexists.
  split; [reflexivity|]. split; [reflexivity|].
  match goal with
  | |- call ?typed' ?fn ?args = _ =>
      apply (proj1 (mutators_leave_built_functions js_call new_instance "f"
                      [("number", VFunction 1 [])] fn []
                      (reachable_new js_call) eq_refl type args))
  end.
  reflexivity.
Defined.

(** ** Further properties of the parser and of the mutators *)

Lemma parseParam_tests typed param t :
  parseParam typed param = Return t ->
  exists tests,
    Forall2 (fun type test => findTest typed type = Return test)
            (paramTypes typed param) tests /\
    forall x, t x = match tests with
                    | [] => true
                    | _ => existsb (fun test : value -> bool => test x) tests
                    end.
Proof.
  unfold parseParam.
  destruct (paramTypes typed param) as [|t0 [|t1 [|t2 ts]]]; intros H.
  - injection H as <-. exists []. split; [constructor | done].
  - exists [t]. split; [by repeat constructor|].
    intros x. simpl. by rewrite orb_false_r.
  - apply bind_Return in H as (test0 & H0 & H).
    apply bind_Return in H as (test1 & H1 & H). injection H as <-.
    exists [test0; test1]. split; [by repeat constructor|].
    intros x. simpl. by rewrite orb_false_r.
  - apply bind_Return in H as (tests & Htests & H). injection H as <-.
    exists tests. split; [by apply map_result_Return|].
    apply map_result_Return in Htests.
    inversion Htests; subst. done.
Qed.

Lemma Forall2_existsb {A B} (f : A -> result B) (p : B -> bool) l1 l2 :
  Forall2 (fun a b => f a = Return b) l1 l2 ->
  existsb p l2 = true <-> exists a b, In a l1 /\ f a = Return b /\ p b = true.
Proof.
  induction 1 as [|a b l1 l2 Hab _ IH]; simpl.
  - split; [done | by intros (? & ? & [] & _)].
  - rewrite orb_true_iff, IH. split.
    + intros [Hb|(a' & b' & Hin & HR & Hp)]; eauto 8.
    + intros (a' & b' & [<-|Hin] & HR & Hp); [|eauto 8].
      left. congruence.
Qed.

(** X1: a parameter is the union of its type names.  The test compiled
    from a parameter text accepts a value exactly when the text names no
    type (after empty and ignored names are dropped), or the registered
    test of one of its type names accepts the value. *)
Theorem parseParam_is_union typed param t :
  parseParam typed param = Return t ->
  forall x,
    t x = true <->
    paramTypes typed param = [] \/
    exists type test,
      In type (paramTypes typed param) /\
      findTest typed type = Return test /\ test x = true.
Proof.
  intros (tests & Htests & Ht)%parseParam_tests x. rewrite Ht.
  destruct tests as [|test tests].
  - inversion Htests. split; auto.
  - rewrite (Forall2_existsb (findTest typed) (fun test : value -> bool => test x) _ _ Htests).
    split; [auto|]. intros [Hnil|H]; [|done].
    rewrite Hnil in Htests. inversion Htests.
Qed.

Lemma parseParam_is_union_witness :
  exists t,
    parseParam new_instance "number | string" = Return t /\
    (t (VString "a") = true <->
     paramTypes new_instance "number | string" = [] \/
     exists type test,
       In type (paramTypes new_instance "number | string") /\
       findTest new_instance type = Return test /\ test (VString "a") = true).
Proof.
  eexists. split; [reflexivity|].
  apply (parseParam_is_union new_instance "number | string"). reflexivity.
Defined.

(** X2: a signature in which the marker [...] occurs before the last
    comma is refused when it is compiled, with a [SyntaxError]; so is
    "number..., string", on every instance. *)
Theorem misplaced_marker_is_refused typed :
  (forall signature,
      misplacedVarArgs signature = true ->
      forall fname impl,
        createTypedFunction typed fname [(signature, impl)] = Throw VarArgsNotLast) /\
  misplacedVarArgs "number..., string" = true /\
  misplacedVarArgs "...number, string" = true.
Proof.
  split; [|split; reflexivity].
  intros signature Hmis fname impl.
  unfold createTypedFunction. simpl.
  unfold misplacedVarArgs in Hmis. apply andb_true_iff in Hmis as [Hvar Hlast].
  unfold parseParams. by rewrite Hvar, Hlast.
Qed.

Lemma misplaced_marker_is_refused_witness :
  createTypedFunction new_instance "f" [("number..., string", VFunction 0 [])]
  = Throw VarArgsNotLast.
Proof.
  apply (proj1 (misplaced_marker_is_refused new_instance)). reflexivity.
Defined.

(** X3: [addType] appends an object of the shape
    [{name: string, test: function}] to the type registry, the other
    registries being kept, and raises the [TypeError] for an invalid type
    on any other value, the registries being kept. *)
Theorem addType_contract js_call typed type :
  (is_type type ->
   addType js_call typed type
   = Return {| types := types typed ++ [entry_of js_call type];
               ignore := ignore typed;
               conversions := conversions typed |}) /\
  (~ is_type type -> addType js_call typed type = Throw InvalidType).
Proof. apply addType_spec. Qed.

Lemma addType_contract_witness :
  addType (fun _ _ => true) new_instance (VString "number") = Throw InvalidType.
Proof.
  apply (proj2 (addType_contract (fun _ _ => true) new_instance (VString "number"))).
  intros (n & f & props & Hname & _). discriminate Hname.
Defined.

(** X4: on an instance whose [conversions] property holds an array,
    [addConversion] appends an object of the shape
    [{from: string, to: string, convert: function}] to it and raises the
    [TypeError] for an invalid conversion on any other value. *)
Theorem addConversion_contract typed registry conversion :
  conversions typed = Some registry ->
  (is_conversion conversion ->
   addConversion typed conversion
   = Return {| types := types typed;
               ignore := ignore typed;
               conversions := Some (registry ++ [conversion]) |}) /\
  (~ is_conversion conversion -> addConversion typed conversion = Throw InvalidConversion).
Proof. apply addConversion_spec. Qed.

Lemma addConversion_contract_witness :
  let typed := {| types := _types; ignore := []; conversions := Some [] |} in
  let conversion := VObject [("from", VString "boolean"); ("to", VString "number");
                             ("convert", VFunction 0 [])] in
  addConversion typed conversion
  = Return {| types := _types; ignore := []; conversions := Some [conversion] |}.
Proof.
  intros typed conversion.
  apply (proj1 (addConversion_contract typed [] conversion eq_refl)).
  exists "boolean", "number", 0%nat, []. repeat split; reflexivity.
Defined.

Lemma variadic_test_length typed signature test args :
  negb (Str.indexOf "..." signature =? -1)%Z = true ->
  parseParams typed signature = Return test ->
  test args = true ->
  (length (Str.split "," signature) <= length args)%nat.
Proof.
  intros Hvar Hparse Hacc. unfold parseParams in Hparse. rewrite Hvar in Hparse.
  destruct (_ >? _)%Z; [discriminate|].
  unfold initial in Hparse.
  apply bind_Return in Hparse as (tests & Htests & Hparse).
  apply map_result_length in Htests.
  destruct (last _) as [lastParam|]; [|discriminate].
  apply bind_Return in Hparse as (lastTest & _ & Hparse). injection Hparse as <-.
  apply andb_true_iff in Hacc as [_ Hlen]. apply Nat.leb_le in Hlen.
  rewrite Htests, length_take, length_map in Hlen.
  pose proof (split_length_pos "," signature). lia.
Qed.

(** X5: the call of a variadic definition.  When the test of a definition
    compiled from a signature with the marker [...] accepts the
    arguments, the implementation is called with the arguments of the
    parameters before the last one followed by one array that holds the
    remaining arguments, of which there is at least one: it receives one
    argument per parameter of the signature. *)
Theorem variadic_call_collects_rest typed signature impl def args :
  createDef typed (signature, impl) = Return def ->
  def_varArg def = true ->
  def_test def args = true ->
  exists fixed rest,
    args = fixed ++ rest /\ rest <> [] /\
    S (length fixed) = length (Str.split "," signature) /\
    forward def args = Apply impl (fixed ++ [VArray rest]).
Proof.
  intros Hdef Hvar Hacc. unfold forward. rewrite Hvar.
  unfold createDef in Hdef.
  apply bind_Return in Hdef as (test & Hparse & Hdef). injection Hdef as <-.
  simpl in *. rewrite Hvar.
  pose proof (variadic_test_length typed signature test args Hvar Hparse Hacc) as Hlen.
  pose proof (split_length_pos "," signature) as Hpos.
  set (offset := (length (Str.split "," signature) - 1)%nat).
  exists (take offset args), (drop offset args).
  split; [by rewrite take_drop|]. split; [|split].
  - intros Hnil. apply (f_equal length) in Hnil.
    rewrite length_drop in Hnil. simpl in Hnil. lia.
  - rewrite length_take. lia.
  - unfold createVarArgPreProcess, slice, slice_from. fold offset.
    by rewrite drop_0, Nat.sub_0_r.
Qed.

Lemma variadic_call_collects_rest_witness :
  exists def fixed rest,
    createDef new_instance ("string, ...number", VFunction 0 []) = Return def /\
    [VString "a"; VNumber 1; VNumber 2] = fixed ++ rest /\ rest <> [] /\
    S (length fixed) = length (Str.split "," "string, ...number") /\
    forward def [VString "a"; VNumber 1; VNumber 2]
    = Apply (VFunction 0 []) (fixed ++ [VArray rest]).
Proof.
  eexists.
  destruct (variadic_call_collects_rest new_instance "string, ...number"
              (VFunction 0 []) _ [VString "a"; VNumber 1; VNumber 2]
              eq_refl eq_refl eq_refl)
    as (fixed & rest & H).
  exists fixed, rest. split; [reflexivity | exact H].
Defined.

(** ** How a signature test is composed of its parameter tests *)

Lemma testsHold_take tests args i :
  (i + length tests <= length args)%nat ->
  testsHold tests args i = true <->
  Forall2 (fun (t : value -> bool) x => t x = true) tests
          (take (length tests) (drop i args)).
Proof.
  revert i. induction tests as [|t tests IH]; intros i Hlen; simpl.
  - rewrite take_0. split; [constructor | done].
  - simpl in Hlen.
    destruct (lookup_lt_is_Some_2 args i) as [x Hx]; [lia|].
    unfold arg. rewrite Hx. simpl.
    rewrite (drop_S _ _ _ Hx). simpl.
    destruct (t x) eqn:Htx.
    + rewrite IH by lia. split; [by constructor | by inversion 1].
    + split; [done|]. inversion 1; congruence.
Qed.

Lemma parseParams_fixed_tests typed signature test :
  Str.indexOf "..." signature = (-1)%Z ->
  parseParams typed signature = Return test ->
  exists tests,
    Forall2 (fun param t => parseParam typed param = Return t)
            (map Str.trim (Str.split "," signature)) tests /\
    forall args,
      test args = testsHold tests args 0 && (length args =? length tests)%nat.
Proof.
  intros Hvar Hparse. unfold parseParams in Hparse.
  rewrite Hvar in Hparse. simpl in Hparse.
  destruct (map Str.trim (Str.split "," signature)) as [|p0 [|p1 [|p2 params]]].
  - injection Hparse as <-. exists []. split; [constructor | done].
  - apply bind_Return in Hparse as (test0 & H0 & Hparse). injection Hparse as <-.
    exists [test0]. split; [by repeat constructor|].
    intros args. simpl. by destruct (test0 (arg args 0)).
  - apply bind_Return in Hparse as (test0 & H0 & Hparse).
    apply bind_Return in Hparse as (test1 & H1 & Hparse). injection Hparse as <-.
    exists [test0; test1]. split; [by repeat constructor|].
    intros args. simpl.
    destruct (test0 (arg args 0)); [|done]. by destruct (test1 (arg args 1)).
  - apply bind_Return in Hparse as (tests & Htests & Hparse). injection Hparse as <-.
    exists tests. split; [by apply map_result_Return | done].
Qed.

(** X6: a signature without the marker [...] is tested parameter by
    parameter.  When it compiles, each of its comma-separated parameters
    compiles, and its test accepts an argument list exactly when the list
    has one argument per parameter and each argument is accepted by the
    test of the parameter at its position; the special cases of the source
    for one and two parameters behave as the general loop. *)
Theorem fixed_signature_is_pointwise typed signature test :
  Str.indexOf "..." signature = (-1)%Z ->
  parseParams typed signature = Return test ->
  exists tests,
    Forall2 (fun param t => parseParam typed param = Return t)
            (map Str.trim (Str.split "," signature)) tests /\
    forall args,
      test args = true <-> Forall2 (fun (t : value -> bool) x => t x = true) tests args.
Proof.
  intros Hvar Hparse.
  destruct (parseParams_fixed_tests typed signature test Hvar Hparse)
    as (tests & Htests & Htest).
  exists tests. split; [exact Htests|].
  intros args. rewrite Htest, andb_true_iff, Nat.eqb_eq. split.
  - intros [Hhold Hlen].
    apply testsHold_take in Hhold; [|lia].
    by rewrite drop_0, <- Hlen, firstn_all in Hhold.
  - intros Hall. pose proof (Forall2_length _ _ _ Hall) as Hlen.
    split; [|done]. apply testsHold_take; [lia|].
    by rewrite drop_0, Hlen, firstn_all.
Qed.

Lemma fixed_signature_is_pointwise_witness :
  exists test tests,
    parseParams new_instance "number, string | boolean" = Return test /\
    Forall2 (fun param t => parseParam new_instance param = Return t)
            ["number"; "string | boolean"] tests /\
    forall args,
      test args = true <-> Forall2 (fun (t : value -> bool) x => t x = true) tests args.
Proof.
  eexists.
  destruct (fixed_signature_is_pointwise new_instance "number, string | boolean" _
              eq_refl eq_refl) as (tests & H).
  exists tests. split; [reflexivity | exact H].
Defined.

Lemma parseParams_variadic_tests typed signature test :
  Str.indexOf "..." signature <> (-1)%Z ->
  parseParams typed signature = Return test ->
  exists fixedParams lastParam tests lastTest,
    map Str.trim (Str.split "," signature) = fixedParams ++ [lastParam] /\
    Forall2 (fun param t => parseParam typed param = Return t) fixedParams tests /\
    parseParam typed (Str.replace_first3 lastParam) = Return lastTest /\
    forall args,
      test args = testsHold tests args 0
                  && forallb lastTest (drop (length tests) args)
                  && (length tests + 1 <=? length args)%nat.
Proof.
  intros Hvar Hparse. unfold parseParams in Hparse.
  apply Z.eqb_neq in Hvar. rewrite Hvar in Hparse. simpl in Hparse.
  destruct (_ >? _)%Z; [discriminate|].
  set (params := map Str.trim (Str.split "," signature)) in *.
  assert (1 <= length params)%nat as Hpos.
  { unfold params. rewrite length_map. apply split_length_pos. }
  unfold initial in Hparse.
  apply bind_Return in Hparse as (tests & Htests & Hparse).
  destruct (last _) as [lastParam|] eqn:Hlast; [|discriminate].
  apply bind_Return in Hparse as (lastTest & HlastTest & Hparse).
  injection Hparse as <-.
  exists (take (length params - 1) params), lastParam, tests, lastTest.
  split; [|split; [by apply map_result_Return|split; [done|done]]].
  rewrite <- (take_drop (length params - 1) params) at 1. f_equal.
  unfold last in Hlast. rewrite length_drop in Hlast.
  replace (length params - (length params - 1) - 1)%nat with 0%nat in Hlast by lia.
  assert (length (drop (length params - 1) params) = 1%nat) as Hone
      by (rewrite length_drop; lia).
  destruct (drop (length params - 1) params) as [|y [|z rest]]; simpl in *;
    try discriminate.
  by injection Hlast as ->.
Qed.

(** X7: a signature with the marker [...] is tested parameter by
    parameter, the last parameter any number of times.  When it compiles,
    its test accepts an argument list exactly when the list splits into one
    argument per parameter before the last one, each accepted by the test
    of its parameter, followed by at least one further argument, all
    accepted by the test of the last parameter (compiled from its text
    without its first three characters). *)
Theorem variadic_signature_is_pointwise typed signature test :
  Str.indexOf "..." signature <> (-1)%Z ->
  parseParams typed signature = Return test ->
  exists fixedParams lastParam tests lastTest,
    map Str.trim (Str.split "," signature) = fixedParams ++ [lastParam] /\
    Forall2 (fun param t => parseParam typed param = Return t) fixedParams tests /\
    parseParam typed (Str.replace_first3 lastParam) = Return lastTest /\
    forall args,
      test args = true <->
      exists fixed rest,
        args = fixed ++ rest /\
        Forall2 (fun (t : value -> bool) x => t x = true) tests fixed /\
        rest <> [] /\
        Forall (fun x => lastTest x = true) rest.
Proof.
  intros Hvar Hparse.
  destruct (parseParams_variadic_tests typed signature test Hvar Hparse)
    as (fixedParams & lastParam & tests & lastTest & Hsplit & Htests & Hlast & Htest).
  exists fixedParams, lastParam, tests, lastTest.
  split; [done|]. split; [done|]. split; [done|].
  intros args. rewrite Htest, !andb_true_iff, Nat.leb_le, forallb_forall. split.
  - intros [[Hhold Hrest] Hlen].
    exists (take (length tests) args), (drop (length tests) args).
    split; [by rewrite take_drop|]. split; [|split].
    + apply testsHold_take in Hhold; [|lia]. by rewrite drop_0 in Hhold.
    + intros Hnil. apply (f_equal length) in Hnil.
      rewrite length_drop in Hnil. simpl in Hnil. lia.
    + by apply List.Forall_forall.
  - intros (fixed & rest & -> & Hfixed & Hne & Hrest).
    pose proof (Forall2_length _ _ _ Hfixed) as Hlen.
    split; [split|].
    + apply testsHold_take; [rewrite length_app; lia|].
      by rewrite drop_0, Hlen, take_app_length.
    + rewrite Hlen, drop_app_length. by apply List.Forall_forall.
    + rewrite length_app. destruct rest; [done|]. simpl. lia.
Qed.

Lemma variadic_signature_is_pointwise_witness :
  exists test fixedParams lastParam tests lastTest,
    parseParams new_instance "string, ...number" = Return test /\
    ["string"; "...number"] = fixedParams ++ [lastParam] /\
    Forall2 (fun param t => parseParam new_instance param = Return t) fixedParams tests /\
    parseParam new_instance (Str.replace_first3 lastParam) = Return lastTest /\
    forall args,
      test args = true <->
      exists fixed rest,
        args = fixed ++ rest /\
        Forall2 (fun (t : value -> bool) x => t x = true) tests fixed /\
        rest <> [] /\
        Forall (fun x => lastTest x = true) rest.
Proof.
  eexists.
  assert (Str.indexOf "..." "string, ...number" <> (-1)%Z) as Hvar by (vm_compute; discriminate).
  destruct (variadic_signature_is_pointwise new_instance "string, ...number" _
              Hvar eq_refl) as (fixedParams & lastParam & tests & lastTest & H).
  exists fixedParams, lastParam, tests, lastTest. split; [reflexivity | exact H].
Defined.

(** ** The ignore list *)

Lemma notIgnore_false typed type : notIgnore typed type = false <-> In type (ignore typed).
Proof.
  unfold notIgnore. rewrite negb_false_iff, existsb_exists. split.
  - intros (type' & Hin & Heq). apply String.eqb_eq in Heq. by subst.
  - intros Hin. exists type. split; [done|]. apply String.eqb_refl.
Qed.

(** X8: a parameter all of whose type names are ignored accepts every
    value.  When each [|]-separated name of a parameter text is empty or
    is in the ignore list of the instance, no name is looked up and the
    parameter compiles to the test that is always true, whether or not
    the names are registered; and every name that is looked up is a
    non-empty name outside the ignore list. *)
Theorem ignored_parameter_accepts_all typed param :
  (forall type, In type (paramTypes typed param) ->
                type <> "" /\ ~ In type (ignore typed)) /\
  ((forall type, In type (map Str.trim (Str.split "|" param)) ->
                 type = "" \/ In type (ignore typed)) ->
   paramTypes typed param = [] /\ parseParam typed param = Return ok).
Proof.
  split.
  - unfold paramTypes. intros type [[_ Hne]%filter_In Hnot]%filter_In. split.
    + intros ->. discriminate Hne.
    + intros Hin%notIgnore_false. congruence.
  - intros Hall.
    assert (paramTypes typed param = []) as Hnone.
    { unfold paramTypes.
      induction (map Str.trim (Str.split "|" param)) as [|type names IH]; simpl; [done|].
      assert (List.filter (notIgnore typed) (List.filter notEmpty names) = []) as Hrest.
      { apply IH. intros type' Hin. apply Hall. by right. }
      destruct (Hall type (or_introl eq_refl)) as [->|Hign]; simpl; [done|].
      destruct (notEmpty type); simpl; [|done].
      apply notIgnore_false in Hign. by rewrite Hign. }
    split; [done|]. unfold parseParam. by rewrite Hnone.
Qed.

Lemma ignored_parameter_accepts_all_witness :
  let typed := {| types := _types; ignore := ["number"; "Unit"]; conversions := None |} in
  paramTypes typed "number | Unit" = [] /\
  parseParam typed "number | Unit" = Return ok.
Proof.
  intros typed.
  apply (proj2 (ignored_parameter_accepts_all typed "number | Unit")).
  simpl. intros type [<-|[<-|[]]]; right; simpl; auto.
Defined.

(** ** Lookups after [addType] *)

Lemma find_app_r {A} (p : A -> bool) (l1 l2 : list A) :
  find p l1 = None -> find p (l1 ++ l2) = find p l2.
Proof.
  induction l1 as [|a l1 IH]; simpl; [done|].
  destruct (p a); [discriminate | exact IH].
Qed.

Lemma findTest_Return typed type t :
  findTest typed type = Return t ->
  exists entry,
    find (fun entry => String.eqb (TypeEntry.name entry) type) (types typed) = Some entry /\
    t = TypeEntry.test entry.
Proof.
  unfold findTest. destruct (find _ (types typed)) as [entry|]; [|discriminate].
  intros [= <-]. eauto.
Qed.

(** X9: [addType] cannot redefine a type, and defines a new one.  After a
    successful [addType], every type name that resolved before resolves to
    the same test as before, also the name of the added entry when it was
    taken (the earliest entry of a name is the one found); when the name
    of the added entry was not registered, it now resolves to the test of
    the added entry; every other unregistered name stays unknown. *)
Theorem addType_then_findTest js_call typed x typed' :
  addType js_call typed x = Return typed' ->
  exists n f props,
    get x "name" = VString n /\ get x "test" = VFunction f props /\
    (forall type t, findTest typed type = Return t -> findTest typed' type = Return t) /\
    (absent typed n -> findTest typed' n = Return (js_call f)) /\
    (forall type, absent typed type -> type <> n -> absent typed' type).
Proof.
  intros Hadd.
  assert (is_type x) as Htype.
  { destruct (addType_spec js_call typed x) as [_ Hno].
    unfold is_type.
    destruct (get x "name") as [| | | |n| | | | | | |] eqn:Hname;
      try (rewrite Hno in Hadd; [discriminate|];
           intros (n' & f' & props' & Hn & _); congruence).
    destruct (get x "test") as [| | | | |f props| | | | | |] eqn:Htest;
      try (rewrite Hno in Hadd; [discriminate|];
           intros (n' & f' & props' & _ & Hf); congruence).
    eauto. }
  rewrite (proj1 (addType_spec js_call typed x) Htype) in Hadd.
  injection Hadd as <-.
  destruct Htype as (n & f & props & Hname & Htest).
  exists n, f, props. split; [done|]. split; [done|].
  unfold entry_of. rewrite Hname, Htest. split; [|split].
  - intros type t (entry & Hfind & ->)%findTest_Return.
    unfold findTest. simpl. by rewrite (find_app_l _ _ _ _ Hfind).
  - intros Habs. unfold findTest. simpl.
    rewrite find_app_r.
    + simpl. by rewrite String.eqb_refl.
    + apply find_None_Forall. eapply Forall_impl; [exact Habs|].
      simpl. intros entry Hne. by apply String.eqb_neq.
  - intros type Habs Hne. unfold absent. simpl.
    apply Forall_app. split; [exact Habs|].
    constructor; [|constructor]. simpl. congruence.
Qed.

Lemma addType_then_findTest_witness :
  let js_call := fun (_ : fid) (x : value) => String.eqb (typeof x) "string" in
  let x := VObject [("name", VString "number"); ("test", VFunction 7 [])] in
  exists typed' n f props,
    addType js_call new_instance x = Return typed' /\
    get x "name" = VString n /\ get x "test" = VFunction f props /\
    (forall type t, findTest new_instance type = Return t ->
                    findTest typed' type = Return t) /\
    (absent new_instance n -> findTest typed' n = Return (js_call f)) /\
    (forall type, absent new_instance type -> type <> n -> absent typed' type).
Proof.
  intros js_call x. eexists.
  destruct (addType_then_findTest js_call new_instance x _ eq_refl)
    as (n & f & props & H).
  exists n, f, props. split; [reflexivity | exact H].
Defined.

(** ** The [signatures] object of a typed function *)

Lemma foldl_insert_lookup (entries : list (string * value)) (m : gmap string value) k impl :
  foldl (fun (m : gmap string value) entry => <[entry.1 := entry.2]> m) m entries !! k
  = Some impl <->
  (exists pre key post,
      entries = pre ++ (key, impl) :: post /\ key = k /\
      Forall (fun entry => entry.1 <> k) post)
  \/ (Forall (fun entry => entry.1 <> k) entries /\ m !! k = Some impl).
Proof.
  revert m. induction entries as [|[key v] entries IH]; intros m; simpl.
  - split.
    + intros H. right. split; [constructor | done].
    + intros [(pre & key & post & Hsplit & _)|[_ H]]; [|done].
      by destruct pre.
  - rewrite IH. split.
    + intros [(pre & key' & post & -> & Hkey & Hpost)|[Hall Hm]].
      * left. exists ((key, v) :: pre), key', post. done.
      * destruct (decide (key = k)) as [->|Hne].
        -- rewrite lookup_insert_eq in Hm. injection Hm as ->.
           left. exists [], k, entries. done.
        -- rewrite lookup_insert_ne in Hm by done.
           right. split; [by constructor | done].
    + intros [(pre & key' & post & Hsplit & Hkey & Hpost)|[Hall Hm]].
      * destruct pre as [|entry pre]; simpl in Hsplit.
        -- injection Hsplit as H1 H2 H3. subst. right. split; [done|].
           apply lookup_insert_eq.
        -- injection Hsplit as H1 H2. subst. left. exists pre, k, post. done.
      * inversion Hall as [|? ? Hne Hall']; subst. simpl in Hne.
        right. split; [done|]. by rewrite lookup_insert_ne.
Qed.

Lemma fn_signatures_foldl typed fname signatures fn :
  createTypedFunction typed fname signatures = Return fn ->
  fn_signatures fn
  = foldl (fun (m : gmap string value) entry => <[entry.1 := entry.2]> m) ∅
          (map (fun entry : string * value => (Str.remove_spaces entry.1, entry.2))
               signatures).
Proof.
  unfold createTypedFunction. intros H.
  apply bind_Return in H as (defs & Hdefs & H). injection H as <-. simpl.
  apply map_result_Return in Hdefs. generalize (∅ : gmap string value) as m.
  induction Hdefs as [|[signature impl] def signatures defs Hdef _ IH]; intros m;
    simpl; [done|].
  apply createDef_fields in Hdef as (-> & -> & _). apply IH.
Qed.

Lemma assoc_set_prop key v props k :
  assoc k (set_prop key v props) = if String.eqb key k then Some v else assoc k props.
Proof.
  induction props as [|[k' v'] props IH]; simpl.
  - done.
  - destruct (String.eqb k' key) eqn:Hkey; simpl.
    + apply String.eqb_eq in Hkey as ->. by destruct (String.eqb key k).
    + rewrite IH. destruct (String.eqb k' k) eqn:Hk; [|done].
      apply String.eqb_eq in Hk as ->. by rewrite String.eqb_sym, Hkey.
Qed.

(** X10: the [signatures] object of a typed function maps the text of a
    signature, stripped of its spaces, to the implementation of the last
    signature of the input that has this stripped text (while a call goes
    to the first definition that accepts it); texts of no signature of
    the input are not keys.  The object as a value holds the same
    implementation under each key. *)
Theorem signatures_metadata typed fname signatures fn :
  createTypedFunction typed fname signatures = Return fn ->
  forall k,
    (forall impl,
        fn_signatures fn !! k = Some impl <->
        exists pre signature post,
          signatures = pre ++ (signature, impl) :: post /\
          Str.remove_spaces signature = k /\
          Forall (fun entry => Str.remove_spaces entry.1 <> k) post) /\
    assoc k (signaturesObject (fn_defs fn)) = fn_signatures fn !! k.
Proof.
  intros Hfn k. split.
  - intros impl. rewrite (fn_signatures_foldl _ _ _ _ Hfn), foldl_insert_lookup.
    rewrite lookup_empty. split.
    + intros [(pre & key & post & Hsplit & Hkey & Hpost)|[_ ?]]; [|done].
      apply map_eq_app in Hsplit as (pre' & rest & -> & <- & Hrest).
      apply map_eq_cons in Hrest as ([signature impl'] & post' & -> & Hentry & <-).
      simpl in Hentry. injection Hentry as <- <-.
      exists pre', signature, post'. split; [done|]. split; [done|].
      exact (proj1 (List.Forall_map _ _ _) Hpost).
    + intros (pre & signature & post & -> & Hkey & Hpost). left.
      exists (map (fun entry : string * value => (Str.remove_spaces entry.1, entry.2)) pre),
             (Str.remove_spaces signature),
             (map (fun entry : string * value => (Str.remove_spaces entry.1, entry.2)) post).
      split; [by rewrite map_app|]. split; [done|].
      apply List.Forall_map. exact Hpost.
  - unfold createTypedFunction in Hfn.
    apply bind_Return in Hfn as (defs & _ & Hfn). injection Hfn as <-. simpl.
    unfold signaturesObject.
    assert (forall (props : list (string * value)) (m : gmap string value),
               assoc k props = m !! k ->
               assoc k (foldl (fun props def =>
                                 set_prop (def_signature def) (def_fn def) props) props defs)
               = foldl (fun (m : gmap string value) def =>
                          <[def_signature def := def_fn def]> m) m defs !! k) as Hgen.
    { induction defs as [|def defs IH]; intros props m Hagree; simpl; [done|].
      apply IH. rewrite assoc_set_prop.
      destruct (String.eqb (def_signature def) k) eqn:Hk.
      - apply String.eqb_eq in Hk as <-. by rewrite lookup_insert_eq.
      - apply String.eqb_neq in Hk. by rewrite lookup_insert_ne. }
    apply Hgen. by rewrite lookup_empty.
Qed.

Lemma signatures_metadata_witness :
  exists fn,
    createTypedFunction new_instance "f"
      [("number, string", VFunction 0 []); ("number,string", VFunction 1 [])] = Return fn /\
    fn_signatures fn !! "number,string" = Some (VFunction 1 []) /\
    call new_instance fn [VNumber 1; VString "a"]
    = ([0%nat], Apply (VFunction 0 []) [VNumber 1; VString "a"]).
Proof.
  eexists. split; [reflexivity|]. split; [|reflexivity].
  match goal with
  | |- fn_signatures ?fn !! _ = _ =>
      apply (proj1 (signatures_metadata new_instance "f"
                      [("number, string", VFunction 0 []); ("number,string", VFunction 1 [])]
                      fn eq_refl "number,string"))
  end.
  exists [("number, string", VFunction 0 [])], "number,string", [].
  split; [reflexivity|]. split; [reflexivity|]. constructor.
Defined.

(** ** The exceptions of compilation *)

Lemma map_result_Throw_inv {A B} (f : A -> result B) (l : list A) e :
  map_result f l = Throw e <->
  exists pre a post,
    l = pre ++ a :: post /\ Forall (fun a' => exists b, f a' = Return b) pre /\
    f a = Throw e.
Proof.
  split.
  - revert e. induction l as [|a l IH]; intros e; simpl; [discriminate|].
    destruct (f a) as [b|e'] eqn:Ha; simpl.
    + destruct (map_result f l) as [bs|e''] eqn:Hl; simpl; [discriminate|].
      intros [= <-].
      destruct (IH e'' eq_refl) as (pre & a' & post & -> & Hpre & Ha').
      exists (a :: pre), a', post. split; [done|]. split; [|done].
      constructor; eauto.
    + intros [= <-]. exists [], a, l. split; [done|]. split; [constructor | done].
  - intros (pre & a & post & -> & Hpre & Ha).
    induction Hpre as [|a' pre [b Hb] _ IH]; simpl.
    + by rewrite Ha.
    + by rewrite Hb, IH.
Qed.

Lemma parseParams_Return_of_params typed signature bs :
  misplacedVarArgs signature = false ->
  map_result (parseParam typed) (signatureParams signature) = Return bs ->
  exists test, parseParams typed signature = Return test.
Proof.
  unfold misplacedVarArgs, parseParams, signatureParams.
  destruct (negb (Str.indexOf "..." signature =? -1)%Z); simpl.
  - intros ->. unfold initial.
    set (params := map Str.trim (Str.split "," signature)).
    assert (1 <= length params)%nat as Hpos.
    { unfold params. rewrite length_map. apply split_length_pos. }
    assert (exists lastParam, last (drop (length params - 1) params) = Some lastParam)
      as [lastParam Hlast].
    { unfold last. rewrite length_drop.
      apply lookup_lt_is_Some_2. rewrite length_drop. lia. }
    rewrite Hlast, map_result_app.
    destruct (map_result (parseParam typed) (take (length params - 1) params))
      as [tests|]; simpl; [|discriminate].
    destruct (parseParam typed (Str.replace_first3 lastParam)); simpl; [|discriminate].
    eauto.
  - intros _.
    destruct (map Str.trim (Str.split "," signature)) as [|p0 [|p1 [|p2 params]]];
      simpl; [eauto|..].
    + destruct (parseParam typed p0); simpl; [eauto | discriminate].
    + destruct (parseParam typed p0); simpl; [|discriminate].
      destruct (parseParam typed p1); simpl; [eauto | discriminate].
    + intros ->. simpl. eauto.
Qed.

Lemma parseParams_errors typed signature e :
  parseParams typed signature = Throw e ->
  e = VarArgsNotLast \/
  exists type hint,
    In type (signatureTypes typed signature) /\ absent typed type /\
    e = UnknownType type hint.
Proof.
  intros Hparse. destruct (misplacedVarArgs signature) eqn:Hmis.
  - left. rewrite (misplaced_is_SyntaxError typed signature Hmis) in Hparse. congruence.
  - right.
    destruct (map_result (parseParam typed) (signatureParams signature)) as [bs|e']
      eqn:Hmap.
    + destruct (parseParams_Return_of_params typed signature bs Hmis Hmap) as [test Ht].
      congruence.
    + rewrite (parseParams_Throw typed signature e' Hmis Hmap) in Hparse.
      injection Hparse as <-.
      apply map_result_Throw_inv in Hmap as (pre & param & post & Hsplit & _ & Hparam).
      destruct (parseParam_cases typed param)
        as [[t Ht]|(type & hint & Hin & Habs & Ht)]; [congruence|].
      exists type, hint. split; [|split; [done | congruence]].
      unfold signatureTypes. apply in_concat.
      exists (paramTypes typed param). split; [|done].
      apply in_map. rewrite Hsplit. apply in_elt.
Qed.

(** X11: what compiling a map of signatures can raise.
    [createTypedFunction] raises exactly the exception of the first
    signature, in the order of the map, that does not compile, and returns
    a typed function when every signature compiles; the exception is the
    [SyntaxError] of a misplaced marker [...] or the [TypeError] of a type
    name that is not registered (and not ignored), and nothing else. *)
Theorem compile_errors typed fname signatures :
  (forall e,
      createTypedFunction typed fname signatures = Throw e <->
      exists pre signature impl post,
        signatures = pre ++ (signature, impl) :: post /\
        Forall (fun entry => exists test, parseParams typed entry.1 = Return test) pre /\
        parseParams typed signature = Throw e) /\
  (forall e,
      createTypedFunction typed fname signatures = Throw e ->
      e = VarArgsNotLast \/
      exists type hint, absent typed type /\ e = UnknownType type hint) /\
  ((exists fn, createTypedFunction typed fname signatures = Return fn) <->
   Forall (fun entry => exists test, parseParams typed entry.1 = Return test) signatures).
Proof.
  assert (forall entry : string * value,
             (exists def, createDef typed entry = Return def) <->
             exists test, parseParams typed entry.1 = Return test) as Hdef_ok.
  { intros [signature impl]. unfold createDef. simpl.
    destruct (parseParams typed signature); simpl; split; intros [? H]; eauto;
      discriminate. }
  assert (forall (entry : string * value) e,
             createDef typed entry = Throw e <-> parseParams typed entry.1 = Throw e)
    as Hdef_err.
  { intros [signature impl] e. unfold createDef. simpl.
    destruct (parseParams typed signature); simpl; split; congruence. }
  assert (forall e,
             createTypedFunction typed fname signatures = Throw e <->
             exists pre signature impl post,
               signatures = pre ++ (signature, impl) :: post /\
               Forall (fun entry => exists test, parseParams typed entry.1 = Return test) pre /\
               parseParams typed signature = Throw e) as Hfirst.
  { intros e. unfold createTypedFunction.
    transitivity (map_result (createDef typed) signatures = Throw e).
    { destruct (map_result (createDef typed) signatures); simpl; split; congruence. }
    rewrite map_result_Throw_inv. split.
    - intros (pre & [signature impl] & post & -> & Hpre & Herr).
      exists pre, signature, impl, post. split; [done|]. split.
      + eapply Forall_impl; [exact Hpre|]. intros entry. apply Hdef_ok.
      + by apply (Hdef_err (signature, impl)).
    - intros (pre & signature & impl & post & -> & Hpre & Herr).
      exists pre, (signature, impl), post. split; [done|]. split.
      + eapply Forall_impl; [exact Hpre|]. intros entry. apply Hdef_ok.
      + by apply Hdef_err. }
  split; [exact Hfirst|]. split.
  - intros e (pre & signature & impl & post & _ & _ & Herr)%Hfirst.
    destruct (parseParams_errors typed signature e Herr)
      as [->|(type & hint & _ & Habs & ->)]; eauto.
  - split.
    + intros [fn Hfn]. clear Hfirst.
      apply createTypedFunction_defs in Hfn as [_ Hdefs].
      induction Hdefs as [|entry def ? ? Hdef _ IH]; [constructor|].
      constructor; [|exact IH]. apply Hdef_ok. eauto.
    + intros Hall.
      destruct (createTypedFunction typed fname signatures) as [fn|e] eqn:Hfn; [eauto|].
      destruct (proj1 (Hfirst e) eq_refl)
        as (pre & signature & impl & post & -> & _ & Herr).
      apply Forall_app in Hall as [_ Hall]. inversion Hall as [|? ? [test Ht]]; subst.
      simpl in Ht. congruence.
Qed.

Lemma compile_errors_witness :
  createTypedFunction new_instance "f"
    [("number", VFunction 0 []); ("Strnig", VFunction 1 []); ("a..., b", VFunction 2 [])]
  = Throw (UnknownType "Strnig" None).
Proof.
  apply (proj1 (compile_errors new_instance "f" _)).
  exists [("number", VFunction 0 [])], "Strnig", (VFunction 1 []),
         [("a..., b", VFunction 2 [])].
  split; [reflexivity|]. split; [|reflexivity].
  constructor; [|constructor]. eexists. reflexivity.
Defined.

(** ** The names reported by the no-match error *)

(** X12: the type names in the no-match error of an instance.  On every
    instance state reachable from [create], the name reported for an
    argument is the name of the first built-in test that accepts it:
    number, string, boolean, Function, Array, Date, RegExp, Object or
    undefined, and any for a symbol or a big integer, which no other
    built-in test accepts.  So [null] is reported as Object, and the name
    null and the names added by [addType] are never reported, nor is
    "unknown". *)
Theorem diagnostic_names_are_builtin js_call typed fname args :
  reachable js_call typed ->
  createError typed fname args = NoMatchingSignature (map builtin_name args) fname.
Proof.
  intros [extra Hreg]%reachable_types.
  unfold createError. rewrite Hreg.
  apply (f_equal (fun typesList => NoMatchingSignature typesList fname)).
  apply map_ext. intros x. by destruct x.
Qed.

Lemma diagnostic_names_are_builtin_witness :
  let js_call := fun (_ : fid) (x : value) => true in
  let person := VObject [("name", VString "Person"); ("test", VFunction 0 [])] in
  createError (perform js_call new_instance (AddType person)) "f"
              [VNull; VObject [("age", VNumber 3)]; VSymbol "id"]
  = NoMatchingSignature ["Object"; "Object"; "any"] "f".
Proof.
  intros js_call person.
  apply (diagnostic_names_are_builtin js_call).
  apply reachable_step, reachable_new.
Defined.

(** ** The entry point [typed] *)

Lemma typedFunction_defs :
  exists wrapper d1 d2,
    typedFunction = Return wrapper /\
    fn_name wrapper = "typed" /\
    fn_defs wrapper = [d1; d2] /\
    def_varArg d1 = false /\ def_fn d1 = VFunction fid_createTypedFunction [] /\
    (forall args,
        def_test d1 args
        = String.eqb (typeof (arg args 0)) "string"
          && String.eqb (typeof (arg args 1)) "object" && (length args =? 2)%nat) /\
    def_varArg d2 = false /\ def_fn d2 = VFunction fid_fromSignatures [] /\
    (forall args,
        def_test d2 args
        = String.eqb (typeof (arg args 0)) "object" && (length args =? 1)%nat).
Proof.
  eexists. eexists. eexists.
  split; [reflexivity|]. split; [reflexivity|]. split; [reflexivity|].
  repeat split; reflexivity.
Qed.

Lemma typed_call_cases typed args :
  typed_call typed args =
  if String.eqb (typeof (arg args 0)) "string"
     && String.eqb (typeof (arg args 1)) "object" && (length args =? 2)%nat
  then match arg args 0 with
       | VString name => Some (createTypedFunction typed name (ownProps (arg args 1)))
       | _ => None
       end
  else if String.eqb (typeof (arg args 0)) "object" && (length args =? 1)%nat
       then typedFromSignatures typed (arg args 0)
       else Some (Throw (createError typed "typed" args)).
Proof.
  destruct typedFunction_defs
    as (wrapper & d1 & d2 & Hw & Hname & Hdefs & Hv1 & Hf1 & Ht1 & Hv2 & Hf2 & Ht2).
  unfold typed_call. rewrite Hw. unfold call. rewrite Hdefs, Hname. simpl.
  rewrite Ht1. destruct (_ && _ && _); simpl.
  - unfold forward. rewrite Hv1, Hf1. reflexivity.
  - rewrite Ht2. destruct (_ && _); simpl; [|reflexivity].
    unfold forward. rewrite Hv2, Hf2. reflexivity.
Qed.

Lemma typed_call_two typed name signatures :
  typeof signatures = "object" ->
  typed_call typed [VString name; signatures]
  = Some (createTypedFunction typed name (ownProps signatures)).
Proof.
  intros Hobj. rewrite typed_call_cases. simpl.
  unfold arg. simpl. by rewrite Hobj.
Qed.

Lemma typed_call_one typed signatures :
  typeof signatures = "object" ->
  typed_call typed [signatures] = typedFromSignatures typed signatures.
Proof.
  intros Hobj. rewrite typed_call_cases. unfold arg. simpl.
  rewrite Hobj. simpl.
  destruct signatures; simpl in Hobj; try discriminate; reflexivity.
Qed.

(** X13: the two forms of [typed].  Called with a string and a value
    whose [typeof] is "object", [typed] returns what [createTypedFunction]
    returns for that name and the own properties of the value; called with
    one such value, it takes the name from [findTypedFunctionName]; called
    with anything else, it raises the no-match error of the function named
    "typed".  The arguments are tested against the built-in types, however
    the registries of the instance have been changed since. *)
Theorem typed_entry_point typed :
  (forall name signatures,
      typeof signatures = "object" ->
      typed_call typed [VString name; signatures]
      = Some (createTypedFunction typed name (ownProps signatures))) /\
  (forall signatures,
      typeof signatures = "object" ->
      typed_call typed [signatures] = typedFromSignatures typed signatures) /\
  (forall args,
      (forall name signatures,
          args = [VString name; signatures] -> typeof signatures <> "object") ->
      (forall signatures, args = [signatures] -> typeof signatures <> "object") ->
      typed_call typed args = Some (Throw (createError typed "typed" args))).
Proof.
  split; [|split].
  - apply typed_call_two.
  - apply typed_call_one.
  - intros args Htwo Hone. rewrite typed_call_cases.
    destruct args as [|x [|y [|z args]]]; unfold arg; simpl.
    + reflexivity.
    + rewrite andb_false_r. simpl.
      destruct (String.eqb (typeof x) "object") eqn:Hx; [|reflexivity].
      apply String.eqb_eq in Hx. destruct (Hone x eq_refl Hx).
    + destruct (String.eqb (typeof x) "string") eqn:Hx; simpl.
      * destruct (String.eqb (typeof y) "object") eqn:Hy; simpl.
        -- apply typeof_string in Hx as [name ->]. apply String.eqb_eq in Hy.
           destruct (Htwo name y eq_refl Hy).
        -- by rewrite andb_false_r.
      * by rewrite andb_false_r.
    + rewrite !andb_false_r. reflexivity.
Qed.

Lemma typed_entry_point_witness :
  typed_call new_instance [VNumber 1; VObject []]
  = Some (Throw (createError new_instance "typed" [VNumber 1; VObject []])).
Proof.
  apply (proj2 (proj2 (typed_entry_point new_instance))).
  - intros name signatures [= ]. 
  - intros signatures [= ].
Defined.

Lemma firstTypedFunctionName_untyped props :
  Forall (fun entry : string * value => has_members entry.2 /\ untyped entry.2) props ->
  forall rest, firstTypedFunctionName (props ++ rest) = firstTypedFunctionName rest.
Proof.
  induction 1 as [|[signature impl] props [[Hnull Hundef] Huntyped] _ IH]; intros rest;
    simpl; [done|].
  simpl in *. unfold untyped in Huntyped. rewrite Huntyped, IH.
  by destruct impl.
Qed.

Lemma typed_call_untyped typed props :
  Forall (fun entry : string * value => has_members entry.2 /\ untyped entry.2) props ->
  typed_call typed [VObject props] = Some (createTypedFunction typed "" props).
Proof.
  intros Hall. rewrite typed_call_one by reflexivity.
  unfold typedFromSignatures, findTypedFunctionName. simpl.
  rewrite <- (app_nil_r props) at 1.
  by rewrite (firstTypedFunctionName_untyped props Hall).
Qed.

(** X14: the name of a typed function built from a map alone.  When the
    implementations of the map are values with members, the typed function
    gets the name of the first implementation that is itself a typed
    function, and the empty name (reported as "unnamed") when no
    implementation has a truthy [signatures] property; the definitions are
    those [createTypedFunction] builds from the map under that name. *)
Theorem typed_inherits_name typed props :
  (forall pre signature f fn0 post,
      props = pre ++ (signature, toValue f fn0) :: post ->
      Forall (fun entry : string * value => has_members entry.2 /\ untyped entry.2) pre ->
      typed_call typed [VObject props]
      = Some (createTypedFunction typed (fn_name fn0) props)) /\
  (Forall (fun entry : string * value => has_members entry.2 /\ untyped entry.2) props ->
   typed_call typed [VObject props] = Some (createTypedFunction typed "" props)).
Proof.
  split.
  - intros pre signature f fn0 post -> Hpre.
    rewrite typed_call_one by reflexivity.
    unfold typedFromSignatures, findTypedFunctionName. simpl.
    rewrite (firstTypedFunctionName_untyped pre Hpre). simpl.
    destruct (String.eqb (fn_name fn0) "") eqn:Hname; simpl; [|reflexivity].
    apply String.eqb_eq in Hname. by rewrite Hname.
  - apply typed_call_untyped.
Qed.

Lemma typed_inherits_name_witness :
  exists inner,
    typed_call new_instance [VString "size"; VObject [("string", VFunction 20 [])]]
    = Some (Return inner) /\
    let props := [("Array", VFunction 21 [("name", VString "count")]);
                  ("string", toValue 22 inner)] in
    typed_call new_instance [VObject props]
    = Some (createTypedFunction new_instance "size" props).
Proof.
  eexists. split; [reflexivity|]. intros props. subst props.
  match goal with
  | |- context [toValue 22 ?inner] =>
      apply (proj1 (typed_inherits_name new_instance _)
               [("Array", VFunction 21 [("name", VString "count")])]
               "string" 22%nat inner [] eq_refl)
  end.
  constructor; [|constructor]. simpl. repeat split; discriminate.
Defined.

(** X15: edge cases of [typed].  In the one-argument form an
    implementation that is [null] or [undefined], met before any typed
    function, makes the call raise the engine's [TypeError] of a member
    access, while the two-argument form builds the function from the same
    map.  A map without own properties ([null], an empty object or array,
    a date, a regular expression) gives, in both forms, a typed function
    without definitions, every call of which raises the no-match error. *)
Theorem typed_edge_cases typed :
  (forall pre signature post,
      Forall (fun entry : string * value => has_members entry.2 /\ untyped entry.2) pre ->
      typed_call typed [VObject (pre ++ (signature, VNull) :: post)]
      = Some (Throw (NullMember "signatures")) /\
      typed_call typed [VObject (pre ++ (signature, VUndefined) :: post)]
      = Some (Throw (UndefinedMember "signatures")) /\
      forall name,
        typed_call typed [VString name; VObject (pre ++ (signature, VNull) :: post)]
        = Some (createTypedFunction typed name (pre ++ (signature, VNull) :: post))) /\
  (forall signatures,
      typeof signatures = "object" -> ownProps signatures = [] ->
      forall name,
      exists fn1 fn2,
        typed_call typed [signatures] = Some (Return fn1) /\
        typed_call typed [VString name; signatures] = Some (Return fn2) /\
        (forall typed' args,
            call typed' fn1 args = ([], Raise (createError typed' "" args)) /\
            call typed' fn2 args = ([], Raise (createError typed' name args)))).
Proof.
  pose proof (typed_call_two typed) as Htwo.
  pose proof (typed_call_one typed) as Hone.
  split.
  - intros pre signature post Hpre. split; [|split].
    + rewrite Hone by reflexivity.
      unfold typedFromSignatures, findTypedFunctionName. simpl.
      by rewrite (firstTypedFunctionName_untyped pre Hpre).
    + rewrite Hone by reflexivity.
      unfold typedFromSignatures, findTypedFunctionName. simpl.
      by rewrite (firstTypedFunctionName_untyped pre Hpre).
    + intros name. by rewrite Htwo.
  - intros signatures Hobj Hempty name.
    eexists. eexists.
    rewrite Hone, Htwo by done.
    unfold typedFromSignatures, findTypedFunctionName. rewrite Hempty. simpl.
    split; [reflexivity|]. split; [reflexivity|].
    intros typed' args. split; reflexivity.
Qed.

Lemma typed_edge_cases_witness :
  typed_call new_instance [VObject [("number", VFunction 0 []); ("string", VNull)]]
  = Some (Throw (NullMember "signatures")).
Proof.
  assert (Forall (fun entry : string * value => has_members entry.2 /\ untyped entry.2)
                 [("number", VFunction 0 [])]) as Hpre.
  { constructor; [|constructor]. simpl. repeat split; discriminate. }
  destruct (proj1 (typed_edge_cases new_instance)
              [("number", VFunction 0 [])] "string" [] Hpre) as [Hnull _].
  exact Hnull.
Defined.

(** ** Conversions *)

(** X16: conversions are registered and never applied.  What the
    [conversions] property of an instance holds changes neither what
    [createTypedFunction] and [typed] return nor what a call of a typed
    function results in.  With the conversions of
    examples/type_conversion.js in place, the function built there from
    "string" and "string, number" forwards ('foo') and ('foo', n) to its
    two implementations and raises the no-match error for (false) and for
    ('foo', true). *)
Theorem conversions_are_never_applied :
  (forall typed registry fname signatures,
      createTypedFunction (with_conversions typed registry) fname signatures
      = createTypedFunction typed fname signatures) /\
  (forall typed registry fn args,
      call (with_conversions typed registry) fn args = call typed fn args) /\
  (forall typed registry args,
      typed_call (with_conversions typed registry) args = typed_call typed args) /\
  (forall impl1 impl2,
      has_members impl1 -> untyped impl1 -> has_members impl2 -> untyped impl2 ->
      let typed := with_conversions new_instance (Some example_conversions) in
      exists fn,
        typed_call typed [VObject [("string", impl1); ("string, number", impl2)]]
        = Some (Return fn) /\
        call typed fn [VString "foo"] = ([0%nat], Apply impl1 [VString "foo"]) /\
        (forall n, call typed fn [VString "foo"; VNumber n]
                   = ([0; 1]%nat, Apply impl2 [VString "foo"; VNumber n])) /\
        call typed fn [VBoolean false]
        = ([0; 1]%nat, Raise (NoMatchingSignature ["boolean"] "")) /\
        call typed fn [VString "foo"; VBoolean true]
        = ([0; 1]%nat, Raise (NoMatchingSignature ["string"; "boolean"] ""))).
Proof.
  split; [reflexivity|]. split; [reflexivity|].
  assert (forall typed registry args,
             typed_call (with_conversions typed registry) args = typed_call typed args)
    as Htyped.
  { intros typed registry args. rewrite !typed_call_cases. reflexivity. }
  split; [exact Htyped|].
  intros impl1 impl2 Hm1 Hu1 Hm2 Hu2 typed.
  eexists. split.
  - unfold typed.
    rewrite typed_call_untyped.
    + reflexivity.
    + repeat constructor; simpl; try apply Hm1; try apply Hm2; assumption.
  - repeat split; reflexivity.
Qed.

Lemma conversions_are_never_applied_witness :
  let typed := with_conversions new_instance (Some example_conversions) in
  exists fn,
    typed_call typed [VObject [("string", VFunction 1 []); ("string, number", VFunction 2 [])]]
    = Some (Return fn) /\
    call typed fn [VBoolean false]
    = ([0; 1]%nat, Raise (NoMatchingSignature ["boolean"] "")).
Proof.
  intros typed.
  destruct (proj2 (proj2 (proj2 conversions_are_never_applied))
              (VFunction 1 []) (VFunction 2 []))
    as (fn & Hfn & _ & _ & Hfalse & _);
    try (split; discriminate); try reflexivity.
  exists fn. split; [exact Hfn | exact Hfalse].
Defined.

(** ** Calls without arguments *)

Lemma parseParams_rejects_nil typed signature test :
  parseParams typed signature = Return test -> test [] = false.
Proof.
  intros Hparse. destruct (test []) eqn:Hacc; [|done]. exfalso.
  pose proof (split_length_pos "," signature) as Hpos.
  destruct (Z.eqb_spec (Str.indexOf "..." signature) (-1)) as [Hvar|Hvar].
  - pose proof (parseParams_fixed_arity typed signature test [] Hvar Hparse Hacc) as Hlen.
    simpl in Hlen. lia.
  - assert (negb (Str.indexOf "..." signature =? -1)%Z = true) as Hvar'
        by (by apply negb_true_iff, Z.eqb_neq).
    pose proof (variadic_test_length typed signature test [] Hvar' Hparse Hacc) as Hlen.
    simpl in Hlen. lia.
Qed.

(** X17: no signature accepts the empty argument list.  The test of every
    signature that compiles, with or without the marker [...], is false
    on no arguments; so a call without arguments of any typed function
    evaluates every test and raises the no-match error with an empty list
    of types. *)
Theorem no_call_without_arguments typed fname signatures fn :
  createTypedFunction typed fname signatures = Return fn ->
  Forall (fun def => def_test def [] = false) (fn_defs fn) /\
  forall typed',
    call typed' fn [] = (seq 0 (length signatures), Raise (NoMatchingSignature [] fname)).
Proof.
  intros [Hname Hdefs]%createTypedFunction_defs.
  assert (Forall (fun def => def_test def [] = false) (fn_defs fn)) as Hnone.
  { induction Hdefs as [|[signature impl] def ? ? Hdef _ IH]; constructor; [|exact IH].
    apply createDef_fields in Hdef as (_ & _ & Hparse & _).
    by apply parseParams_rejects_nil in Hparse. }
  split; [exact Hnone|].
  intros typed'. unfold call. rewrite (scan_none _ 0 [] Hnone).
  rewrite (Forall2_length _ _ _ Hdefs), Hname. reflexivity.
Qed.

Lemma no_call_without_arguments_witness :
  exists fn,
    createTypedFunction new_instance "now" [("", VFunction 0 []); ("...any", VFunction 1 [])]
    = Return fn /\
    call new_instance fn [] = ([0; 1]%nat, Raise (NoMatchingSignature [] "now")).
Proof.
  eexists. split; [reflexivity|].
  match goal with
  | |- call _ ?fn _ = _ =>
      apply (proj2 (no_call_without_arguments new_instance "now"
                      [("", VFunction 0 []); ("...any", VFunction 1 [])] fn eq_refl))
  end.
Defined.
